(** * workshop_OpenMM: the Lennard-Jones tutorial notebooks

    A shallow embedding of the Python code of the two notebooks
    [lennard_jones_toysystem_own_integrator.ipynb] (custom integrator and
    custom reporter) and the droplet notebook that follows it in the same
    source file, together with a reference model of the parts of the OpenMM
    API the notebooks call.

    Conventions.
    - Python [int] is [Z]; [range(n)] iterates [Z.to_nat n] times.
    - A Python number carrying a physical quantity is an exact rational [Q]:
      the magnitude of the quantity in OpenMM's internal unit system
      (nanometre, picosecond, amu, kJ/mol, elementary charge).  Rounding and
      overflow of binary64 arithmetic are outside the model.
    - A Python function that calls into a library is a program of the
      monad [Prog]: a tree of library calls; Python's [try]/[except] is the
      constructor [Try], and [raise] is [Raise].  A library is a handler that
      answers each call with a value or an exception. *)

From Stdlib Require Import ZArith QArith Qabs List String Ascii Bool Lia Lqa Floats.
Import ListNotations.

Set Implicit Arguments.

Open Scope string_scope.
Open Scope list_scope.
Open Scope Q_scope.

(** ** Python exceptions and the program monad *)

Module Py.

Inductive Exn : Type :=
| OpenMMException (msg : string)
| ValueError (msg : string)
| TypeError (msg : string)
| KeyError (msg : string)
| ZeroDivisionError
| OtherError (msg : string).

Definition Result (A : Type) : Type := (Exn + A)%type.

Section WithCalls.

(** [E R] is the type of library calls that answer with an [R]. *)
Variable E : Type -> Type.

Inductive Prog (A : Type) : Type :=
| Ret (a : A)
| Raise (e : Exn)
| Call (R : Type) (c : E R) (k : R -> Prog A)
| Try (X : Type) (body : Prog X) (handler : Exn -> Prog X) (k : X -> Prog A).

Arguments Raise {A} e.

Fixpoint bind {A B : Type} (p : Prog A) (f : A -> Prog B) : Prog B :=
  match p with
  | Ret a => f a
  | Raise e => Raise e
  | Call c k => Call c (fun r => bind (k r) f)
  | Try body handler k => Try body handler (fun x => bind (k x) f)
  end.

Definition call {R : Type} (c : E R) : Prog R := Call c (fun r => Ret r).

(** [for x in xs: acc = body(acc, x)] *)
Fixpoint for_each {A S : Type} (xs : list A) (body : S -> A -> Prog S) (acc : S)
  : Prog S :=
  match xs with
  | [] => Ret acc
  | x :: rest => bind (body acc x) (for_each rest body)
  end.

(** A library: every call is answered with a value or with an exception. *)
Definition Handler : Type := forall R : Type, E R -> Result R.

(** One entry of the log of an execution: the call and whether it raised. *)
Record Entry : Type := mkEntry
  { entry_call : { R : Type & E R };
    entry_raised : option Exn }.

Definition log_of {R : Type} (c : E R) (r : Result R) : Entry :=
  mkEntry (existT E R c) (match r with inl e => Some e | inr _ => None end).

(** Execution of a program against a library, with the log of the library
    calls made, oldest first. *)
Fixpoint exec (h : Handler) {A : Type} (p : Prog A) : list Entry * Result A :=
  match p with
  | Ret a => ([], inr a)
  | Raise e => ([], inl e)
  | Call c k =>
      match h _ c with
      | inl e => ([log_of c (inl e)], inl e)
      | inr r => let (tr, res) := exec h (k r) in (log_of c (inr r) :: tr, res)
      end
  | Try body handler k =>
      let (tr1, res1) := exec h body in
      match res1 with
      | inr x => let (tr2, res2) := exec h (k x) in (tr1 ++ tr2, res2)
      | inl e =>
          let (tr2, res2) := exec h (handler e) in
          match res2 with
          | inr x => let (tr3, res3) := exec h (k x) in (tr1 ++ tr2 ++ tr3, res3)
          | inl e' => (tr1 ++ tr2, inl e')
          end
      end
  end.

Definition run (h : Handler) {A : Type} (p : Prog A) : Result A := snd (exec h p).
Definition trace (h : Handler) {A : Type} (p : Prog A) : list Entry := fst (exec h p).

(** Programs written without [try]/[except]. *)
Inductive NoTry : forall A : Type, Prog A -> Prop :=
| NoTry_Ret : forall (A : Type) (a : A), NoTry (Ret a)
| NoTry_Raise : forall (A : Type) (e : Exn), NoTry (@Raise A e)
| NoTry_Call : forall (A R : Type) (c : E R) (k : R -> Prog A),
    (forall r, NoTry (k r)) -> NoTry (Call c k).

(** Exceptions of library calls propagate: whenever a call of the execution
    raised [e], that call is the last one the program made and the program
    itself ends with [e]. *)
Definition propagates (h : Handler) {A : Type} (p : Prog A) : Prop :=
  forall (en : Entry) (e : Exn),
    In en (trace h p) ->
    entry_raised en = Some e ->
    run h p = inl e /\ exists before, trace h p = before ++ [en].

End WithCalls.

Arguments Ret {E A} a.
Arguments Raise {E A} e.
Arguments Call {E A R} c k.
Arguments Try {E A X} body handler k.
Arguments call {E R} c.
Arguments NoTry {E A} p.
Arguments propagates {E} h {A} p.
Arguments log_of {E R} c r.

End Py.

Import Py.

Declare Scope prog_scope.
Delimit Scope prog_scope with prog.
Notation "x <- c1 ;; c2" := (bind c1 (fun x => c2))
  (at level 61, c1 at next level, right associativity) : prog_scope.
Notation "' pat <- c1 ;; c2" := (bind c1 (fun x => match x with pat => c2 end))
  (at level 61, pat pattern, c1 at next level, right associativity) : prog_scope.
Open Scope prog_scope.

(** ** Reference model of the OpenMM objects the notebooks use

    OpenMM is an external library; the records below keep the part of each
    object that the notebooks' functions write, with the constructors'
    documented defaults, and the handler [openmm] answers each call the way
    the library documents it. *)

Module OpenMM.

(** A quantity is its magnitude in the internal unit system. *)
Definition Quantity : Type := Q.

Inductive Unit : Type :=
| angstrom | nanometer | femtoseconds | picoseconds | amu
| kilojoules_per_mole | kilocalories_per_mole | elementary_charge.

Definition Vec3 : Type := (Q * Q * Q)%type.

(** [simtk.openmm.System] *)
Record System : Type := mkSystem
  { particleMasses : list Q;
    defaultPeriodicBoxVectors : Vec3 * Vec3 * Vec3 }.

Inductive NonbondedMethod : Type :=
| NoCutoff | CutoffNonPeriodic | CutoffPeriodic | Ewald | PME | LJPME.

(** [simtk.openmm.NonbondedForce]; a particle is (charge, sigma, epsilon). *)
Record NonbondedForce : Type := mkNonbondedForce
  { nonbondedMethod : NonbondedMethod;
    particleParameters : list (Q * Q * Q);
    cutoffDistance : Q;
    useSwitchingFunction : bool;
    switchingDistance : Q;
    useDispersionCorrection : bool }.

(** [simtk.openmm.app.Element], [Topology] and its chain, residue and atom
    records; a record refers to its parent by the parent's index. *)
Record Element : Type := mkElement
  { element_symbol : string; atomic_number : Z }.

Record Chain : Type := mkChain { chain_index : Z }.

Record Residue : Type := mkResidue
  { residue_name : string;
    residue_index : Z;
    residue_chain : Z;
    residue_id : Z }.

Record Atom : Type := mkAtom
  { atom_name : string;
    atom_element : Element;
    atom_index : Z;
    atom_residue : Z }.

Record Topology : Type := mkTopology
  { chains : list Chain;
    residues : list Residue;
    atoms : list Atom;
    periodicBoxVectors : option (list (list Q)) }.

(** One computation of a [CustomIntegrator], in the order they were added. *)
Inductive Computation : Type :=
| UpdateContextState
| ComputePerDof (variable expression : string)
| ConstrainPositions
| ConstrainVelocities.

Record CustomIntegrator : Type := mkCustomIntegrator
  { stepSize : Q;
    computations : list Computation }.

(** [simtk.openmm.State]: the energies are present only when the state was
    fetched with [getEnergy=True]; stored as (potential, kinetic). *)
Record State : Type := mkState
  { state_energy : option (Q * Q) }.

(** [simtk.openmm.app.Simulation], as far as a reporter reads it. *)
Record Simulation : Type := mkSimulation
  { currentStep : Z }.

(** The calls of the OpenMM API made by the functions of the notebooks.  A
    method that mutates its receiver answers with the receiver's new value,
    paired with the Python return value when there is one. *)
Inductive Api : Type -> Type :=
| mm_System : Api System
| System_addParticle (s : System) (mass : Q) : Api (System * Z)
| System_setDefaultPeriodicBoxVectors (s : System) (a b c : list Q) : Api System
| mm_NonbondedForce : Api NonbondedForce
| setNonbondedMethod (f : NonbondedForce) (m : NonbondedMethod) : Api NonbondedForce
| NonbondedForce_addParticle (f : NonbondedForce) (charge sigma epsilon : Q)
  : Api (NonbondedForce * Z)
| setCutoffDistance (f : NonbondedForce) (d : Q) : Api NonbondedForce
| setUseSwitchingFunction (f : NonbondedForce) (b : bool) : Api NonbondedForce
| setSwitchingDistance (f : NonbondedForce) (d : Q) : Api NonbondedForce
| setUseDispersionCorrection (f : NonbondedForce) (b : bool) : Api NonbondedForce
| app_Topology : Api Topology
| addChain (t : Topology) : Api (Topology * Chain)
| addResidue (t : Topology) (name : string) (chain : Chain) (id : Z)
  : Api (Topology * Residue)
| Element_getBySymbol (symbol : string) : Api Element
| addAtom (t : Topology) (name : string) (element : Element) (residue : Residue)
  : Api (Topology * Atom)
| Topology_setPeriodicBoxVectors (t : Topology) (vectors : list (list Q)) : Api Topology
| CustomIntegrator_init (timestep : Q) : Api CustomIntegrator
| addUpdateContextState (i : CustomIntegrator) : Api (CustomIntegrator * Z)
| addComputePerDof (i : CustomIntegrator) (variable expression : string)
  : Api (CustomIntegrator * Z)
| addConstrainPositions (i : CustomIntegrator) : Api (CustomIntegrator * Z)
| addConstrainVelocities (i : CustomIntegrator) : Api (CustomIntegrator * Z)
| getPotentialEnergy (s : State) : Api Quantity
| getKineticEnergy (s : State) : Api Quantity
| value_in_unit (q : Quantity) (u : Unit) : Api Q.

Definition len {A : Type} (l : list A) : Z := Z.of_nat (List.length l).

Definition Qltb (x y : Q) : bool := negb (Qle_bool y x).

(** How many of the unit make one internal unit of the same dimension. *)
Definition per_internal_unit (u : Unit) : Q :=
  match u with
  | angstrom => 10
  | femtoseconds => 1000
  | kilocalories_per_mole => 1000 # 4184
  | _ => 1
  end.

(** [q / u]: the magnitude of [q] in unit [u]; [x * u]: the quantity of
    magnitude [x] in unit [u]. *)
Definition div_unit (q : Quantity) (u : Unit) : Q := q * per_internal_unit u.
Definition mul_unit (x : Q) (u : Unit) : Quantity := x / per_internal_unit u.

Definition to_Vec3 (v : list Q) : Result Vec3 :=
  match v with
  | [x; y; z] => inr (x, y, z)
  | _ => inl (TypeError "expected a sequence of 3 numbers")
  end.

(** The checks on periodic box vectors, made by
    [System.setDefaultPeriodicBoxVectors] (which raises an OpenMMException)
    and by [Topology.setPeriodicBoxVectors] (which raises a ValueError). *)
Definition check_box (exn : string -> Exn) (a b c : Vec3) : Result unit :=
  let '(ax, ay, az) := a in
  let '(bx, by_, bz) := b in
  let '(cx, cy, cz) := c in
  if negb (Qeq_bool ay 0) || negb (Qeq_bool az 0) then
    inl (exn "First periodic box vector must be parallel to x.")
  else if negb (Qeq_bool bz 0) then
    inl (exn "Second periodic box vector must be in the x-y plane.")
  else if Qle_bool ax 0 || Qle_bool by_ 0 || Qle_bool cz 0
          || Qltb ax (2 * Qabs bx) || Qltb ax (2 * Qabs cx)
          || Qltb by_ (2 * Qabs cy) then
    inl (exn "Periodic box vectors must be in reduced form.")
  else inr tt.

(** Some rows of the element table behind [Element.getBySymbol]; an unknown
    symbol is a KeyError. *)
Definition periodic_table : list (string * Z) :=
  [("H", 1); ("He", 2); ("C", 6); ("N", 7); ("O", 8); ("Ne", 10); ("Ar", 18);
   ("Kr", 36); ("Xe", 54)]%string%Z.

Fixpoint lookup_symbol (symbol : string) (table : list (string * Z)) : option Z :=
  match table with
  | [] => None
  | (s, z) :: rest => if String.eqb s symbol then Some z else lookup_symbol symbol rest
  end.

Definition no_energy (method : string) : Exn :=
  OpenMMException
    ("Invalid to call " ++ method ++ " on a State which does not contain energies.").

(** The reference library: what each call answers. *)
Definition openmm : Handler Api := fun R c =>
  match c in Api R0 return Result R0 with
  | mm_System => inr (mkSystem [] ((2, 0, 0), (0, 2, 0), (0, 0, 2)))
  | System_addParticle s mass =>
      inr (mkSystem (particleMasses s ++ [mass]) (defaultPeriodicBoxVectors s),
           len (particleMasses s))
  | System_setDefaultPeriodicBoxVectors s a b c =>
      match to_Vec3 a, to_Vec3 b, to_Vec3 c with
      | inr va, inr vb, inr vc =>
          match check_box OpenMMException va vb vc with
          | inr _ => inr (mkSystem (particleMasses s) (va, vb, vc))
          | inl e => inl e
          end
      | inl e, _, _ | _, inl e, _ | _, _, inl e => inl e
      end
  | mm_NonbondedForce => inr (mkNonbondedForce NoCutoff [] 1 false (-1) true)
  | setNonbondedMethod f m =>
      inr (mkNonbondedForce m (particleParameters f) (cutoffDistance f)
             (useSwitchingFunction f) (switchingDistance f) (useDispersionCorrection f))
  | NonbondedForce_addParticle f charge sigma epsilon =>
      inr (mkNonbondedForce (nonbondedMethod f)
             (particleParameters f ++ [(charge, sigma, epsilon)]) (cutoffDistance f)
             (useSwitchingFunction f) (switchingDistance f) (useDispersionCorrection f),
           len (particleParameters f))
  | setCutoffDistance f d =>
      inr (mkNonbondedForce (nonbondedMethod f) (particleParameters f) d
             (useSwitchingFunction f) (switchingDistance f) (useDispersionCorrection f))
  | setUseSwitchingFunction f b =>
      inr (mkNonbondedForce (nonbondedMethod f) (particleParameters f) (cutoffDistance f)
             b (switchingDistance f) (useDispersionCorrection f))
  | setSwitchingDistance f d =>
      inr (mkNonbondedForce (nonbondedMethod f) (particleParameters f) (cutoffDistance f)
             (useSwitchingFunction f) d (useDispersionCorrection f))
  | setUseDispersionCorrection f b =>
      inr (mkNonbondedForce (nonbondedMethod f) (particleParameters f) (cutoffDistance f)
             (useSwitchingFunction f) (switchingDistance f) b)
  | app_Topology => inr (mkTopology [] [] [] None)
  | addChain t =>
      let chain := mkChain (len (chains t)) in
      inr (mkTopology (chains t ++ [chain]) (residues t) (atoms t) (periodicBoxVectors t),
           chain)
  | addResidue t name chain id =>
      let residue := mkResidue name (len (residues t)) (chain_index chain) id in
      inr (mkTopology (chains t) (residues t ++ [residue]) (atoms t)
             (periodicBoxVectors t),
           residue)
  | Element_getBySymbol symbol =>
      match lookup_symbol symbol periodic_table with
      | Some z => inr (mkElement symbol z)
      | None => inl (KeyError symbol)
      end
  | addAtom t name element residue =>
      let atom := mkAtom name element (len (atoms t)) (residue_index residue) in
      inr (mkTopology (chains t) (residues t) (atoms t ++ [atom]) (periodicBoxVectors t),
           atom)
  | Topology_setPeriodicBoxVectors t vectors =>
      match vectors with
      | [a; b; c] =>
          match to_Vec3 a, to_Vec3 b, to_Vec3 c with
          | inr va, inr vb, inr vc =>
              match check_box ValueError va vb vc with
              | inr _ => inr (mkTopology (chains t) (residues t) (atoms t) (Some vectors))
              | inl e => inl e
              end
          | inl e, _, _ | _, inl e, _ | _, _, inl e => inl e
          end
      | _ => inl (TypeError "expected 3 box vectors")
      end
  | CustomIntegrator_init timestep =>
      if Qltb timestep 0 then inl (OpenMMException "Step size cannot be negative")
      else inr (mkCustomIntegrator timestep [])
  | addUpdateContextState i =>
      inr (mkCustomIntegrator (stepSize i) (computations i ++ [UpdateContextState]),
           len (computations i))
  | addComputePerDof i variable expression =>
      inr (mkCustomIntegrator (stepSize i)
             (computations i ++ [ComputePerDof variable expression]),
           len (computations i))
  | addConstrainPositions i =>
      inr (mkCustomIntegrator (stepSize i) (computations i ++ [ConstrainPositions]),
           len (computations i))
  | addConstrainVelocities i =>
      inr (mkCustomIntegrator (stepSize i) (computations i ++ [ConstrainVelocities]),
           len (computations i))
  | getPotentialEnergy s =>
      match state_energy s with
      | Some (pe, _) => inr pe
      | None => inl (no_energy "getPotentialEnergy()")
      end
  | getKineticEnergy s =>
      match state_energy s with
      | Some (_, ke) => inr ke
      | None => inl (no_energy "getKineticEnergy()")
      end
  | value_in_unit q u => inr (div_unit q u)
  end.

(** The functions of [simtk.unit] that [boxvectors2length] calls.  Their
    values are not rational, so they have no reference handler here. *)
Inductive UnitMath : Type -> Type :=
| unit_sqrt (x : Q) : UnitMath Q
| unit_acos (x : Q) : UnitMath Q
| in_units_of_degree (x : Q) : UnitMath Q
| unit_Quantity (t : Q * Q * Q) : UnitMath (Q * Q * Q).

End OpenMM.

Import OpenMM.

(** ** Reference model of one step of a [CustomIntegrator]

    The expressions of [addComputePerDof] are strings; the engine parses
    them and evaluates them once per degree of freedom.  The fragment
    modelled is the one the notebooks use: variables, [+ - * /] with the
    usual precedence and left associativity, and parentheses. *)

Module Lepton.

Inductive BinOp : Type := OpAdd | OpSub | OpMul | OpDiv.

Inductive Expr : Type :=
| Var (name : string)
| Bin (op : BinOp) (lhs rhs : Expr).

Inductive Token : Type :=
| TId (name : string)
| TOp (op : BinOp)
| TLParen
| TRParen.

Definition is_ident_char (c : ascii) : bool :=
  let n := nat_of_ascii c in
  ((65 <=? n) && (n <=? 90) || (97 <=? n) && (n <=? 122)
   || (48 <=? n) && (n <=? 57) || (n =? 95))%nat.

Definition punctuation (c : ascii) : option Token :=
  if Ascii.eqb c "+" then Some (TOp OpAdd)
  else if Ascii.eqb c "-" then Some (TOp OpSub)
  else if Ascii.eqb c "*" then Some (TOp OpMul)
  else if Ascii.eqb c "/" then Some (TOp OpDiv)
  else if Ascii.eqb c "(" then Some TLParen
  else if Ascii.eqb c ")" then Some TRParen
  else None.

Definition flush (cur : string) (ts : list Token) : list Token :=
  if String.eqb cur "" then ts else TId cur :: ts.

Fixpoint lex (s : string) (cur : string) : option (list Token) :=
  match s with
  | EmptyString => Some (flush cur [])
  | String c rest =>
      if is_ident_char c then lex rest (cur ++ String c "")
      else
        match punctuation c with
        | Some t => option_map (fun ts => flush cur (t :: ts)) (lex rest "")
        | None =>
            if Ascii.eqb c " " then option_map (flush cur) (lex rest "") else None
        end
  end.

Definition precedence (op : BinOp) : nat :=
  match op with
  | OpAdd | OpSub => 1
  | OpMul | OpDiv => 2
  end.

Fixpoint parse_prec (fuel min_prec : nat) (ts : list Token) {struct fuel}
  : option (Expr * list Token) :=
  match fuel with
  | O => None
  | S fuel' =>
      match parse_atom fuel' ts with
      | Some (lhs, rest) => climb fuel' min_prec lhs rest
      | None => None
      end
  end
with parse_atom (fuel : nat) (ts : list Token) {struct fuel}
  : option (Expr * list Token) :=
  match fuel with
  | O => None
  | S fuel' =>
      match ts with
      | TId name :: rest => Some (Var name, rest)
      | TLParen :: rest =>
          match parse_prec fuel' 0 rest with
          | Some (e, TRParen :: rest') => Some (e, rest')
          | _ => None
          end
      | _ => None
      end
  end
with climb (fuel min_prec : nat) (lhs : Expr) (ts : list Token) {struct fuel}
  : option (Expr * list Token) :=
  match fuel with
  | O => None
  | S fuel' =>
      match ts with
      | TOp op :: rest =>
          if (min_prec <=? precedence op)%nat then
            match parse_prec fuel' (S (precedence op)) rest with
            | Some (rhs, rest') => climb fuel' min_prec (Bin op lhs rhs) rest'
            | None => None
            end
          else Some (lhs, ts)
      | _ => Some (lhs, ts)
      end
  end.

Definition parse (s : string) : option Expr :=
  match lex s "" with
  | Some ts =>
      match parse_prec (4 * List.length ts + 4) 0 ts with
      | Some (e, []) => Some e
      | _ => None
      end
  | None => None
  end.

(** The value of an expression; [None] when a variable is undefined or a
    divisor is zero (the engine computes a non-finite number there). *)
Fixpoint eval (env : string -> option Q) (e : Expr) : option Q :=
  match e with
  | Var name => env name
  | Bin op lhs rhs =>
      match eval env lhs, eval env rhs with
      | Some a, Some b =>
          match op with
          | OpAdd => Some (a + b)
          | OpSub => Some (a - b)
          | OpMul => Some (a * b)
          | OpDiv => if Qeq_bool b 0 then None else Some (a / b)
          end
      | _, _ => None
      end
  end.

End Lepton.

Module Engine.

Import OpenMM.

(** One degree of freedom: a coordinate of a particle, its velocity and the
    particle's mass. *)
Record Dof : Type := mkDof { pos : Q; vel : Q; mass : Q }.

(** What the system brings to a step: the force on every degree of freedom
    at given positions, the state changes its forces make at
    [UpdateContextState] (a barostat, a thermostat), and the projections of
    its constraint solver. *)
Record Dynamics : Type := mkDynamics
  { force_field : list Q -> list Q;
    update_context_state : list Dof -> list Dof;
    apply_position_constraints : list Dof -> list Dof;
    apply_velocity_constraints : list Dof -> list Dof }.

(** The variables an expression sees at one degree of freedom. *)
Definition env (dt : Q) (d : Dof) (f : Q) (name : string) : option Q :=
  if String.eqb name "x" then Some (pos d)
  else if String.eqb name "v" then Some (vel d)
  else if String.eqb name "f" then Some f
  else if String.eqb name "m" then Some (mass d)
  else if String.eqb name "dt" then Some dt
  else None.

Definition set_variable (variable : string) (d : Dof) (value : Q) : option Dof :=
  if String.eqb variable "x" then Some (mkDof value (vel d) (mass d))
  else if String.eqb variable "v" then Some (mkDof (pos d) value (mass d))
  else None.

(** A per-DOF computation; particles of mass 0 are left alone. *)
Fixpoint compute_per_dof (dt : Q) (variable : string) (e : Lepton.Expr)
    (state : list Dof) (forces : list Q) : option (list Dof) :=
  match state, forces with
  | [], _ => Some []
  | d :: state', f :: forces' =>
      match compute_per_dof dt variable e state' forces' with
      | Some rest =>
          if Qeq_bool (mass d) 0 then Some (d :: rest)
          else
            match Lepton.eval (env dt d f) e with
            | Some value =>
                match set_variable variable d value with
                | Some d' => Some (d' :: rest)
                | None => None
                end
            | None => None
            end
      | None => None
      end
  | _ :: _, [] => None
  end.

Definition do_computation (dyn : Dynamics) (dt : Q) (c : Computation)
    (state : list Dof) : Result (list Dof) :=
  match c with
  | UpdateContextState => inr (update_context_state dyn state)
  | ComputePerDof variable expression =>
      match Lepton.parse expression with
      | Some e =>
          match compute_per_dof dt variable e state (force_field dyn (map pos state)) with
          | Some state' => inr state'
          | None => inl (OpenMMException ("Cannot evaluate " ++ expression))
          end
      | None => inl (OpenMMException ("Parse error in expression: " ++ expression))
      end
  | ConstrainPositions => inr (apply_position_constraints dyn state)
  | ConstrainVelocities => inr (apply_velocity_constraints dyn state)
  end.

Fixpoint do_computations (dyn : Dynamics) (dt : Q) (cs : list Computation)
    (state : list Dof) : Result (list Dof) :=
  match cs with
  | [] => inr state
  | c :: rest =>
      match do_computation dyn dt c state with
      | inr state' => do_computations dyn dt rest state'
      | inl e => inl e
      end
  end.

(** [integrator.step(1)] *)
Definition integrator_step (dyn : Dynamics) (i : CustomIntegrator) (state : list Dof)
  : Result (list Dof) :=
  do_computations dyn (stepSize i) (computations i) state.

(** Explicit (forward) Euler, as the specification words it: the new
    position from the old velocity, the new velocity from the force. *)
Definition forward_euler (dt : Q) (d : Dof) (f : Q) : Dof :=
  mkDof (pos d + dt * vel d) (vel d + dt * f / mass d) (mass d).

(** What the two per-DOF computations of the notebook's integrator do to
    one degree of freedom: the velocity first, the position from the new
    velocity. *)
Definition velocity_then_position (dt : Q) (d : Dof) (f : Q) : Dof :=
  mkDof (pos d + dt * (vel d + dt * f / mass d)) (vel d + dt * f / mass d) (mass d).

Fixpoint map2 {A B C : Type} (g : A -> B -> C) (l : list A) (l' : list B) : list C :=
  match l, l' with
  | a :: t, b :: t' => g a b :: map2 g t t'
  | _, _ => []
  end.

(** Particles under the same constant force [f] on every degree of freedom,
    without constraints. *)
Definition uniform_force (f : Q) : Dynamics :=
  mkDynamics (map (fun _ => f)) (fun state => state) (fun state => state)
    (fun state => state).

(** A system without constraints and without forces that change the state. *)
Definition unconstrained (dyn : Dynamics) : Prop :=
  forall state,
    update_context_state dyn state = state
    /\ apply_position_constraints dyn state = state
    /\ apply_velocity_constraints dyn state = state.

End Engine.

(** ** The functions and classes defined in the notebooks *)

Module Notebook.

(** [range(n)] *)
Definition range (n : Z) : list Z := map Z.of_nat (seq 0 (Z.to_nat n)).

(** [numpy.diag] of a one-dimensional sequence. *)
Definition np_diag (d : list Q) : list (list Q) :=
  map (fun i => map (fun j => if Nat.eqb i j then nth i d 0 else 0)
                 (seq 0 (List.length d)))
      (seq 0 (List.length d)).

(** [x / y] on Python numbers. *)
Definition truediv {E : Type -> Type} (x y : Q) : Prog E Q :=
  if Qeq_bool y 0 then Raise ZeroDivisionError else Ret (x / y).

Definition initialize_system (n_particles : Z) (mass box_size : Quantity)
  : Prog Api System :=
  let box_vectors :=
    map (map (fun x => mul_unit x angstrom))
        (np_diag (map (fun i => div_unit box_size angstrom) (range 3))) in
  system <- call mm_System ;;
  system <- for_each (range n_particles)
              (fun system index =>
                 ' (system, _) <- call (System_addParticle system mass) ;;
                 Ret system)
              system ;;
  let box_vectors := np_diag (map (fun i => box_size) (range 3)) in
  match box_vectors with
  | [a; b; c] => call (System_setDefaultPeriodicBoxVectors system a b c)
  | _ => Raise (TypeError "setDefaultPeriodicBoxVectors() takes 3 box vectors")
  end.

(** The two products [3.0 * sigma] and [2.5 * sigma] are taken exactly
    here; [Binary64.cutoff_distance] and [Binary64.switching_distance] below
    are the same products on Python floats, where they can overflow. *)
Definition create_NonBonndedForce (n_particles : Z) (sigma epsilon charge : Quantity)
  : Prog Api NonbondedForce :=
  force <- call mm_NonbondedForce ;;
  force <- call (setNonbondedMethod force CutoffPeriodic) ;;
  force <- for_each (range n_particles)
             (fun force index =>
                ' (force, _) <- call (NonbondedForce_addParticle force charge sigma epsilon) ;;
                Ret force)
             force ;;
  force <- call (setCutoffDistance force (3 * sigma)) ;;
  force <- call (setUseSwitchingFunction force true) ;;
  force <- call (setSwitchingDistance force ((25 # 10) * sigma)) ;;
  force <- call (setUseDispersionCorrection force true) ;;
  Ret force.

Definition create_topology (n_particles : Z) (box_size : Quantity) : Prog Api Topology :=
  top <- call app_Topology ;;
  ' (top, chain) <- call (addChain top) ;;
  top <- for_each (range n_particles)
           (fun top i =>
              ' (top, residue) <- call (addResidue top "Ar" chain i) ;;
              element <- call (Element_getBySymbol "Ar") ;;
              ' (top, _) <- call (addAtom top "Ar" element residue) ;;
              Ret top)
           top ;;
  let box_vectors :=
    map (map (fun x => mul_unit x angstrom))
        (np_diag (map (fun i => div_unit box_size angstrom) (range 3))) in
  top <- call (Topology_setPeriodicBoxVectors top box_vectors) ;;
  Ret top.

(** Unpacking a sequence into three targets, with Python's messages. *)
Definition unpack3 {E : Type -> Type} {A : Type} (l : list A) : Prog E (A * A * A) :=
  match l with
  | [] => Raise (ValueError "not enough values to unpack (expected 3, got 0)")
  | [_] => Raise (ValueError "not enough values to unpack (expected 3, got 1)")
  | [_; _] => Raise (ValueError "not enough values to unpack (expected 3, got 2)")
  | [a; b; c] => Ret (a, b, c)
  | _ => Raise (ValueError "too many values to unpack (expected 3)")
  end.

(** The nested unpacking takes the box apart first, then its rows from the
    first to the last. *)
Definition boxvectors2length (box_vectors : list (list Q))
  : Prog UnitMath ((Q * Q * Q) * (Q * Q * Q)) :=
  ' (row1, row2, row3) <- unpack3 box_vectors ;;
  ' (lx, _, _) <- unpack3 row1 ;;
  ' (xy, ly, _) <- unpack3 row2 ;;
  ' (xz, yz, lz) <- unpack3 row3 ;;
  let a := lx in
  b <- call (unit_sqrt (ly ^ 2 + xy ^ 2)) ;;
  c <- call (unit_sqrt (lz ^ 2 + xz ^ 2 + yz ^ 2)) ;;
  q <- truediv (xy * xz + ly * yz) (b * c) ;;
  alpha <- call (unit_acos q) ;;
  alpha <- call (in_units_of_degree alpha) ;;
  q <- truediv xz c ;;
  beta <- call (unit_acos q) ;;
  beta <- call (in_units_of_degree beta) ;;
  q <- truediv yz b ;;
  gamma <- call (unit_acos q) ;;
  gamma <- call (in_units_of_degree gamma) ;;
  lengths <- call (unit_Quantity (a, b, c)) ;;
  angles <- call (unit_Quantity (alpha, beta, gamma)) ;;
  Ret (lengths, angles).

(** The records [create_topology] adds for particle [i]: a residue and its
    one atom, both named Ar. *)
Definition argon : Element := mkElement "Ar" 18.

Definition argon_residue (i : nat) : Residue :=
  mkResidue "Ar" (Z.of_nat i) 0 (Z.of_nat i).

Definition argon_atom (i : nat) : Atom :=
  mkAtom "Ar" argon (Z.of_nat i) (Z.of_nat i).

(** [class EulerIntegrator(mm.CustomIntegrator)], method [__init__]. *)
Definition EulerIntegrator (timestep : Quantity) : Prog Api CustomIntegrator :=
  self <- call (CustomIntegrator_init timestep) ;;
  ' (self, _) <- call (addUpdateContextState self) ;;
  ' (self, _) <- call (addComputePerDof self "v" "v+dt*f/m") ;;
  ' (self, _) <- call (addComputePerDof self "x" "x+dt*v") ;;
  ' (self, _) <- call (addConstrainPositions self) ;;
  ' (self, _) <- call (addConstrainVelocities self) ;;
  Ret self.

(** The trees the engine's parser builds for the two expressions. *)
Definition velocity_rule : Lepton.Expr :=
  Lepton.Bin Lepton.OpAdd (Lepton.Var "v")
    (Lepton.Bin Lepton.OpDiv
       (Lepton.Bin Lepton.OpMul (Lepton.Var "dt") (Lepton.Var "f"))
       (Lepton.Var "m")).

Definition position_rule : Lepton.Expr :=
  Lepton.Bin Lepton.OpAdd (Lepton.Var "x")
    (Lepton.Bin Lepton.OpMul (Lepton.Var "dt") (Lepton.Var "v")).

(** One step of a simulation whose integrator is an [EulerIntegrator]. *)
Definition euler_step (dyn : Engine.Dynamics) (timestep : Quantity)
    (state : list Engine.Dof) : Result (list Engine.Dof) :=
  match run openmm (EulerIntegrator timestep) with
  | inr integrator => Engine.integrator_step dyn integrator state
  | inl e => inl e
  end.

(** [class EnergyReporter(object)] *)
Record EnergyReporter : Type := mkEnergyReporter
  { _reportInterval : Z;
    _pe : list Q;
    _ke : list Q;
    _te : list Q }.

Module EnergyReporter_.

Definition __init__ (reportInterval : Z) : EnergyReporter :=
  mkEnergyReporter reportInterval [] [] [].

(** [a % b] on Python integers. *)
Definition py_mod {E : Type -> Type} (a b : Z) : Prog E Z :=
  if (b =? 0)%Z then Raise ZeroDivisionError else Ret (a mod b)%Z.

Definition describeNextReport (self : EnergyReporter) (simulation : Simulation)
  : Prog Api (Z * bool * bool * bool * bool * option bool) :=
  r <- py_mod (currentStep simulation) (_reportInterval self) ;;
  let steps := (_reportInterval self - r)%Z in
  Ret (steps, false, false, false, true, None).

Definition report (self : EnergyReporter) (simulation : Simulation) (state : State)
  : Prog Api EnergyReporter :=
  q <- call (getPotentialEnergy state) ;;
  pe <- call (value_in_unit q kilojoules_per_mole) ;;
  q <- call (getKineticEnergy state) ;;
  ke <- call (value_in_unit q kilojoules_per_mole) ;;
  let self := mkEnergyReporter (_reportInterval self) (_pe self ++ [pe])
                (_ke self) (_te self) in
  let self := mkEnergyReporter (_reportInterval self) (_pe self)
                (_ke self ++ [ke]) (_te self) in
  let self := mkEnergyReporter (_reportInterval self) (_pe self)
                (_ke self) (_te self ++ [pe + ke]) in
  Ret self.

(** A sequence of calls of [report] on the same reporter. *)
Fixpoint report_all (h : Handler Api) (self : EnergyReporter)
    (calls : list (Simulation * State)) : Result EnergyReporter :=
  match calls with
  | [] => inr self
  | (simulation, state) :: rest =>
      match run h (report self simulation state) with
      | inr self' => report_all h self' rest
      | inl e => inl e
      end
  end.

End EnergyReporter_.

End Notebook.

(** ** The distances of the force in binary64

    The functions above compute with exact rationals.  Python computes the
    two products of [create_NonBonndedForce] in binary64, where a product
    whose magnitude reaches [overflow_threshold] is infinite. *)

Module Binary64.






End Binary64.

(** ** The simulation runs of the notebooks

    Each run is the sequence of top-level statements of its cells, in cell
    order; a statement is named after the call it makes. *)

Module Runs.

Inductive Reporter : Type := DCDReporter | StateDataReporter | EnergyReporter.

Inductive Statement : Type :=
| call_initialize_system
| call_create_NonBonndedForce
| system_addForce
| mm_CustomExternalForce
| force_addParticle_loop
| mm_VerletIntegrator
| openmmtools_VelocityVerletIntegrator
| call_EulerIntegrator
| call_create_topology
| app_Simulation
| context_setPositions
| context_setVelocitiesToTemperature
| context_setVelocities
| simulation_minimizeEnergy
| reporters_append (r : Reporter)
| simulation_step
| context_getState
| copy_deepcopy
| list_energies_append
| mdtraj_Topology_from_openmm
| call_boxvectors2length
| mdtraj_Trajectory
| mdtraj_load_dcd
| call_viz_traj
| np_genfromtxt
| print
| plt_title
| plt_plot
| plt_xlabel
| plt_ylabel
| plt_legend.

(** The stages of the pipeline, in the order the specification lists them. *)
Inductive Stage : Type :=
| ConfigureParticleSystem
| AttachForceField
| PickIntegrator
| InstantiateSimulationContext
| SetInitialState
| Minimize
| AttachReporters
| AdvanceSteps
| LoadTrajectory
| Visualize
| PlotDiagnostics.

Definition stage_rank (s : Stage) : nat :=
  match s with
  | ConfigureParticleSystem => 0
  | AttachForceField => 1
  | PickIntegrator => 2
  | InstantiateSimulationContext => 3
  | SetInitialState => 4
  | Minimize => 5
  | AttachReporters => 6
  | AdvanceSteps => 7
  | LoadTrajectory => 8
  | Visualize => 9
  | PlotDiagnostics => 10
  end.

(** The stage a statement belongs to.  Building the topology, fetching a
    state, copying and converting data are preparation for a stage and
    belong to none. *)
Definition stage_of (s : Statement) : option Stage :=
  match s with
  | call_initialize_system => Some ConfigureParticleSystem
  | call_create_NonBonndedForce | system_addForce
  | mm_CustomExternalForce | force_addParticle_loop => Some AttachForceField
  | mm_VerletIntegrator | openmmtools_VelocityVerletIntegrator
  | call_EulerIntegrator => Some PickIntegrator
  | app_Simulation => Some InstantiateSimulationContext
  | context_setPositions | context_setVelocitiesToTemperature
  | context_setVelocities => Some SetInitialState
  | simulation_minimizeEnergy => Some Minimize
  | reporters_append _ => Some AttachReporters
  | simulation_step => Some AdvanceSteps
  | mdtraj_load_dcd => Some LoadTrajectory
  | call_viz_traj => Some Visualize
  | np_genfromtxt | plt_title | plt_plot | plt_xlabel | plt_ylabel
  | plt_legend => Some PlotDiagnostics
  | call_create_topology | context_getState | copy_deepcopy | list_energies_append
  | mdtraj_Topology_from_openmm | call_boxvectors2length | mdtraj_Trajectory
  | print => None
  end.

Fixpoint stages (run : list Statement) : list Stage :=
  match run with
  | [] => []
  | s :: rest =>
      match stage_of s with
      | Some st => st :: stages rest
      | None => stages rest
      end
  end.

(** No stage is followed by an earlier one. *)
Fixpoint in_order (l : list Stage) : bool :=
  match l with
  | [] => true
  | a :: rest =>
      forallb (fun b => (stage_rank a <=? stage_rank b)%nat) rest && in_order rest
  end.

Definition follows_pipeline (run : list Statement) : bool := in_order (stages run).

Definition plot_energies : list Statement :=
  [plt_title; plt_plot; plt_plot; plt_plot; plt_xlabel; plt_ylabel; plt_legend].

(** Notebook [lennard_jones_toysystem_own_integrator]. *)

(** "Normal Simulation": the reference run with the Verlet integrator. *)
Definition reference_run : list Statement :=
  [call_initialize_system; call_create_NonBonndedForce; system_addForce;
   mm_VerletIntegrator; call_create_topology;
   app_Simulation;
   context_setPositions; context_setVelocitiesToTemperature;
   simulation_minimizeEnergy;
   reporters_append DCDReporter; reporters_append StateDataReporter;
   simulation_step;
   mdtraj_Topology_from_openmm; mdtraj_load_dcd; call_viz_traj;
   np_genfromtxt; print]
  ++ plot_energies.

(** "Simulation of an own Integrator". *)
Definition euler_run : list Statement :=
  [call_initialize_system; call_create_NonBonndedForce; system_addForce;
   call_create_topology;
   call_EulerIntegrator;
   app_Simulation;
   context_setPositions; context_setVelocitiesToTemperature;
   simulation_minimizeEnergy;
   reporters_append DCDReporter; reporters_append StateDataReporter;
   simulation_step;
   mdtraj_Topology_from_openmm; mdtraj_load_dcd; call_viz_traj;
   np_genfromtxt; print]
  ++ plot_energies.

(** "Init starting values": the equilibration whose final state is stored. *)
Definition equilibration_run : list Statement :=
  [call_initialize_system; call_create_NonBonndedForce; system_addForce;
   mm_VerletIntegrator; call_create_topology; app_Simulation;
   context_setPositions; context_setVelocitiesToTemperature;
   simulation_minimizeEnergy; simulation_step;
   context_getState; copy_deepcopy; copy_deepcopy; copy_deepcopy; copy_deepcopy].

(** "test integrators": one iteration of the loop, for the integrator built
    by [integrator], followed by the comparison plot. *)
Definition comparison_run (integrator : Statement) : list Statement :=
  [integrator;
   app_Simulation; context_setPositions; context_setVelocities;
   reporters_append EnergyReporter; simulation_step; list_energies_append;
   plt_title; plt_plot; plt_xlabel; plt_ylabel; plt_legend].

Definition integrator_notebook_runs : list (list Statement) :=
  [reference_run; euler_run; equilibration_run;
   comparison_run mm_VerletIntegrator;
   comparison_run openmmtools_VelocityVerletIntegrator;
   comparison_run call_EulerIntegrator].

(** The droplet notebook. *)

(** "Normal Simulation". *)
Definition droplet_normal_run : list Statement :=
  [call_initialize_system; call_create_NonBonndedForce; system_addForce;
   mm_VerletIntegrator; call_create_topology; app_Simulation;
   context_setPositions;
   mdtraj_Topology_from_openmm; call_boxvectors2length; mdtraj_Trajectory;
   call_viz_traj;
   simulation_minimizeEnergy;
   context_getState; call_boxvectors2length; mdtraj_Trajectory; call_viz_traj;
   reporters_append DCDReporter; reporters_append StateDataReporter;
   context_setVelocitiesToTemperature;
   simulation_step;
   mdtraj_Topology_from_openmm; mdtraj_load_dcd; call_viz_traj].

(** "Spherical potential". *)
Definition droplet_spherical_run : list Statement :=
  [call_initialize_system; call_create_NonBonndedForce; system_addForce;
   mm_VerletIntegrator; call_create_topology;
   mm_CustomExternalForce; force_addParticle_loop; system_addForce;
   app_Simulation;
   context_setPositions; context_setVelocitiesToTemperature;
   simulation_minimizeEnergy;
   reporters_append DCDReporter; reporters_append StateDataReporter;
   simulation_step;
   mdtraj_Topology_from_openmm; mdtraj_load_dcd; call_viz_traj].

Definition droplet_notebook_runs : list (list Statement) :=
  [droplet_normal_run; droplet_spherical_run].

Definition all_runs : list (list Statement) :=
  integrator_notebook_runs ++ droplet_notebook_runs.

Definition same_pair (p q : Stage * Stage) : bool :=
  ((stage_rank (fst p) =? stage_rank (fst q))
   && (stage_rank (snd p) =? stage_rank (snd q)))%nat.

Definition add_pair (p : Stage * Stage) (l : list (Stage * Stage))
  : list (Stage * Stage) :=
  if existsb (same_pair p) l then l else l ++ [p].

(** The pairs (a, b) of stages such that the run performs [a] before [b]
    although the pipeline has [b] before [a]; each pair once. *)
Fixpoint out_of_order (l : list Stage) (acc : list (Stage * Stage))
  : list (Stage * Stage) :=
  match l with
  | [] => acc
  | a :: rest =>
      out_of_order rest
        (fold_left (fun acc b =>
                      if (stage_rank b <? stage_rank a)%nat then add_pair (a, b) acc
                      else acc)
                   rest acc)
  end.

Definition violations (run : list Statement) : list (Stage * Stage) :=
  out_of_order (stages run) [].

End Runs.

(** ** Further cells of the notebooks *)

Module Cells.

(** What [np.random.rand(n, 3)] answers: [n] rows of three samples of the
    half-open interval from 0 to 1. *)
Definition unit_samples (n : Z) (rand : list (list Q)) : Prop :=
  List.length rand = Z.to_nat n
  /\ Forall (fun row => List.length row = 3%nat
                        /\ Forall (fun r => 0 <= r /\ r < 1) row) rand.

(** Integrator notebook:
    [positions = box_size * np.random.rand(n_particles, 3)],
    for the array [rand] that numpy drew. *)
Definition bulk_positions (box_size : Quantity) (rand : list (list Q)) : list (list Q) :=
  map (map (fun r => box_size * r)) rand.

(** Droplet notebook:
    [positions = (box_size - space*2) * np.random.rand(n_particles, 3) + space],
    in exact arithmetic.  In binary64 the product with a sample just below 1
    can round up to [box_size - space*2] itself, so a coordinate can reach
    the value of the expression at 1. *)
Definition droplet_positions (box_size space : Quantity) (rand : list (list Q))
  : list (list Q) :=
  map (map (fun r => (box_size - space * 2) * r + space)) rand.

(** [str.format] with keyword arguments, for templates of literal text,
    the escapes [{{] and [}}], and plain named fields; the values are given
    as the strings they format to.  Positional fields raise as Python does
    without positional arguments; attribute access, indexing, conversions and
    format specifications are not modelled. *)
Fixpoint lookup_kwarg (name : string) (kwargs : list (string * string)) : option string :=
  match kwargs with
  | [] => None
  | (k, v) :: rest => if String.eqb k name then Some v else lookup_kwarg name rest
  end.

Definition positional (name : string) : bool :=
  match name with
  | EmptyString => true
  | String c _ => let n := nat_of_ascii c in ((48 <=? n) && (n <=? 57))%nat
  end.

Definition field_syntax (c : ascii) : bool :=
  Ascii.eqb c "{" || Ascii.eqb c "." || Ascii.eqb c "[" || Ascii.eqb c "!"
  || Ascii.eqb c ":".

Definition prepend (c : ascii) (r : Result string) : Result string :=
  match r with
  | inr s => inr (String c s)
  | inl e => inl e
  end.

Fixpoint str_format (template : string) (field : option string)
    (kwargs : list (string * string)) : Result string :=
  match template with
  | EmptyString =>
      match field with
      | None => inr EmptyString
      | Some _ => inl (ValueError "expected '}' before end of string")
      end
  | String c rest =>
      match field with
      | None =>
          if Ascii.eqb c "{" then
            match rest with
            | String c' rest' =>
                if Ascii.eqb c' "{" then prepend "{" (str_format rest' None kwargs)
                else str_format rest (Some EmptyString) kwargs
            | EmptyString => inl (ValueError "Single '{' encountered in format string")
            end
          else if Ascii.eqb c "}" then
            match rest with
            | String c' rest' =>
                if Ascii.eqb c' "}" then prepend "}" (str_format rest' None kwargs)
                else inl (ValueError "Single '}' encountered in format string")
            | EmptyString => inl (ValueError "Single '}' encountered in format string")
            end
          else prepend c (str_format rest None kwargs)
      | Some name =>
          if Ascii.eqb c "}" then
            if positional name then
              inl (OtherError "IndexError: tuple index out of range")
            else
              match lookup_kwarg name kwargs with
              | Some v =>
                  match str_format rest None kwargs with
                  | inr s => inr (v ++ s)%string
                  | inl e => inl e
                  end
              | None => inl (KeyError name)
              end
          else if field_syntax c then
            inl (OtherError "format field syntax outside the model")
          else str_format rest (Some (name ++ String c EmptyString)%string) kwargs
      end
  end.

(** Droplet notebook, the energy expression of the spherical restraint:
    the template and the keyword arguments [r0], [x0], [y0], [z0] of the
    call of [format]. *)
Definition spherical_restraint_expression (r0 x0 y0 z0 : string) : Result string :=
  str_format "10*max(0, r-{r0})^2; r=sqrt((x-{x0})^2+(y-{x0})^2+(z-{z0})^2)" None
    [("r0", r0); ("x0", x0); ("y0", y0); ("z0", z0)].

(** What the reference library makes [report] record for a call: the
    energies of the call's state in kJ/mol (0 when the state has none). *)
Definition reported_potential (c : Simulation * State) : Q :=
  match state_energy (snd c) with
  | Some (pe, _) => div_unit pe kilojoules_per_mole
  | None => 0
  end.

Definition reported_kinetic (c : Simulation * State) : Q :=
  match state_energy (snd c) with
  | Some (_, ke) => div_unit ke kilojoules_per_mole
  | None => 0
  end.

(** The box [create_topology] hands to the Topology: diag(box_size)
    converted to angstrom and back. *)
Definition topology_box (box_size : Quantity) : list (list Q) :=
  map (map (fun x => mul_unit x angstrom))
      (Notebook.np_diag (map (fun i : Z => div_unit box_size angstrom) (Notebook.range 3))).

(** Sums over the degrees of freedom: the total of a list, the total
    momentum, and twice the energy of a harmonic well of stiffness [k] as the
    integrator with timestep [dt] sees it. *)
Definition total (l : list Q) : Q := fold_right Qplus 0 l.

Definition total_momentum (state : list Engine.Dof) : Q :=
  total (map (fun d => Engine.mass d * Engine.vel d) state).

Definition shadow_energy (k dt : Q) (state : list Engine.Dof) : Q :=
  total (map (fun d => Engine.mass d * (Engine.vel d * Engine.vel d)
                       + k * (Engine.pos d * Engine.pos d)
                       - dt * k * Engine.pos d * Engine.vel d) state).

(** The argument of a logged call of [acos]. *)
Definition acos_argument (en : Entry UnitMath) : option Q :=
  match projT2 (entry_call en) with
  | unit_acos x => Some x
  | _ => None
  end.

Definition no_angle_but_zero (en : Entry UnitMath) : Prop :=
  forall x, acos_argument en = Some x -> x == 0.

(** The library computed the lengths [b] and [c] of the second and third
    box vector and their product is zero. *)
Definition degenerate_box (hm : Handler UnitMath) (xy ly xz yz lz : Q) : Prop :=
  exists b c,
    hm _ (unit_sqrt (ly ^ 2 + xy ^ 2)) = inr b
    /\ hm _ (unit_sqrt (lz ^ 2 + xz ^ 2 + yz ^ 2)) = inr c
    /\ b * c == 0.

(** A stand-in for [simtk.unit] in examples: it answers every call with the
    call's argument. *)
Definition echo_unit_math : Handler UnitMath := fun R c =>
  match c in UnitMath R0 return Result R0 with
  | unit_sqrt x => inr x
  | unit_acos x => inr x
  | in_units_of_degree x => inr x
  | unit_Quantity t => inr t
  end.

(** The box is three rows of three numbers. *)
Definition three_by_three (box_vectors : list (list Q)) : bool :=
  (List.length box_vectors =? 3)%nat
  && forallb (fun row => (List.length row =? 3)%nat) box_vectors.

End Cells.

(** ** Usage of the context in the runs *)

Module Protocol.

Import Runs.

Definition creates_context (s : Statement) : bool :=
  match s with app_Simulation => true | _ => false end.

Definition uses_context (s : Statement) : bool :=
  match s with
  | context_setPositions | context_setVelocitiesToTemperature | context_setVelocities
  | simulation_minimizeEnergy | reporters_append _ | simulation_step
  | context_getState => true
  | _ => false
  end.

Definition sets_positions (s : Statement) : bool :=
  match s with context_setPositions => true | _ => false end.

Definition sets_velocities (s : Statement) : bool :=
  match s with
  | context_setVelocitiesToTemperature | context_setVelocities => true
  | _ => false
  end.

Definition needs_positions (s : Statement) : bool :=
  match s with simulation_minimizeEnergy | simulation_step => true | _ => false end.

Definition advances (s : Statement) : bool :=
  match s with simulation_step => true | _ => false end.

Definition prepares (s : Statement) : bool :=
  match s with
  | context_setPositions | context_setVelocitiesToTemperature | context_setVelocities
  | simulation_minimizeEnergy | reporters_append _ => true
  | _ => false
  end.

Definition attaches_dcd (s : Statement) : bool :=
  match s with reporters_append DCDReporter => true | _ => false end.

Definition loads_dcd (s : Statement) : bool :=
  match s with mdtraj_load_dcd => true | _ => false end.

(** Every statement that satisfies [later] comes after one that satisfies
    [first]; [seen] tells whether one was met already. *)
Fixpoint preceded (first later : Statement -> bool) (seen : bool)
    (run : list Statement) : bool :=
  match run with
  | [] => true
  | s :: rest =>
      (negb (later s) || seen) && preceded first later (seen || first s) rest
  end.

(** No statement that satisfies [later] comes after one that satisfies
    [first]. *)
Fixpoint never_after (first later : Statement -> bool) (seen : bool)
    (run : list Statement) : bool :=
  match run with
  | [] => true
  | s :: rest =>
      negb (later s && seen) && never_after first later (seen || first s) rest
  end.

(** The context is created before it is used; positions are set before
    minimizing or advancing and velocities before advancing; once the
    simulation has advanced, nothing is set, minimized or attached any more;
    a trajectory file is loaded only after a DCD reporter was attached and
    the simulation advanced. *)
Definition well_ordered (run : list Statement) : bool :=
  preceded creates_context uses_context false run
  && preceded sets_positions needs_positions false run
  && preceded sets_velocities advances false run
  && never_after advances prepares false run
  && preceded attaches_dcd loads_dcd false run
  && preceded advances loads_dcd false run.

End Protocol.

(** ** Reference model of [Simulation.step] with one energy reporter

    After the loop of OpenMM's [app.Simulation]: while steps remain, ask the
    reporter for its next report; if that report falls within the remaining
    steps, advance to it, fetch a state with the fields the reporter asked
    for, and call [report]; otherwise advance to the end.  [energies_at k] is
    the potential and kinetic energy of the context after [k] steps in
    total.  [None] means the fuel ran out before the loop ended. *)

Module AppSimulation.

Import Notebook.
Import EnergyReporter_.

Definition getState (getEnergy : bool) (energies : Q * Q) : State :=
  mkState (if getEnergy then Some energies else None).

Fixpoint simulate (fuel : nat) (h : Handler Api) (energies_at : Z -> Q * Q)
    (reporter : EnergyReporter) (currentStep endStep : Z)
  : option (Result (EnergyReporter * Z)) :=
  match fuel with
  | O => if (currentStep <? endStep)%Z then None else Some (inr (reporter, currentStep))
  | S fuel' =>
      if (currentStep <? endStep)%Z then
        match run h (describeNextReport reporter (mkSimulation currentStep)) with
        | inl e => Some (inl e)
        | inr (steps, _, _, _, getEnergy, _) =>
            let remaining := (endStep - currentStep)%Z in
            let anyReport := ((0 <? steps) && (steps <=? remaining))%Z in
            let nextSteps := if anyReport then steps else remaining in
            let currentStep' := (currentStep + nextSteps)%Z in
            if anyReport then
              match run h (report reporter (mkSimulation currentStep')
                             (getState getEnergy (energies_at currentStep'))) with
              | inl e => Some (inl e)
              | inr reporter' => simulate fuel' h energies_at reporter' currentStep' endStep
              end
            else simulate fuel' h energies_at reporter currentStep' endStep
        end
      else Some (inr (reporter, currentStep))
  end.

(** [simulation.step(steps)] on a simulation at [currentStep]. *)
Definition step (h : Handler Api) (energies_at : Z -> Q * Q)
    (reporter : EnergyReporter) (currentStep steps : Z)
  : option (Result (EnergyReporter * Z)) :=
  simulate (Z.to_nat steps) h energies_at reporter currentStep (currentStep + steps).

(** [count] consecutive multiples of the interval, from [first] on. *)
Fixpoint multiples_from (interval first : Z) (count : nat) : list Z :=
  match count with
  | O => []
  | S count' => first :: multiples_from interval (first + interval) count'
  end.

(** The multiples of the interval after [currentStep], up to [endStep]. *)
Definition report_steps (interval currentStep endStep : Z) : list Z :=
  multiples_from interval ((currentStep / interval + 1) * interval)
    (Z.to_nat (endStep / interval - currentStep / interval)).

End AppSimulation.


(** * Properties *)

(** ** Programs and their executions *)

Section ProgFacts.

Variable E : Type -> Type.
Variable h : Handler E.

Lemma exec_bind (A : Type) (p : Prog E A) :
  forall (B : Type) (f : A -> Prog E B),
    exec h (bind p f) =
    match exec h p with
    | (tr, inr a) => let (tr', res) := exec h (f a) in (tr ++ tr', res)
    | (tr, inl e) => (tr, inl e)
    end.
Proof.
  induction p as [A a | A e | A R c k IH | A X body IHb handler IHh k IHk];
    intros B f; simpl.
  - destruct (exec h (f a)); reflexivity.
  - reflexivity.
  - destruct (h c) as [e | r]; [reflexivity |].
    rewrite IH. destruct (exec h (k r)) as [tr [e | a]]; [reflexivity |].
    destruct (exec h (f a)); reflexivity.
  - destruct (exec h body) as [tr1 [e | x]].
    + destruct (exec h (handler e)) as [tr2 [e' | x]]; [reflexivity |].
      rewrite IHk. destruct (exec h (k x)) as [tr3 [e3 | a]]; [reflexivity |].
      destruct (exec h (f a)); rewrite <- !app_assoc; reflexivity.
    + rewrite IHk. destruct (exec h (k x)) as [tr3 [e3 | a]]; [reflexivity |].
      destruct (exec h (f a)); rewrite <- !app_assoc; reflexivity.
Qed.

Lemma run_bind (A B : Type) (p : Prog E A) (f : A -> Prog E B) :
  run h (bind p f) =
  match run h p with
  | inr a => run h (f a)
  | inl e => inl e
  end.
Proof.
  unfold run. rewrite exec_bind.
  destruct (exec h p) as [tr [e | a]]; [reflexivity |].
  simpl. destruct (exec h (f a)); reflexivity.
Qed.

Lemma run_call (R : Type) (c : E R) : run h (call c) = h c.
Proof.
  unfold run, call. simpl. destruct (h c); reflexivity.
Qed.

(** A loop whose body always returns behaves like a fold. *)
Lemma run_for_each (A S : Type) (body : S -> A -> Prog E S) (step : S -> A -> S) :
  (forall s x, run h (body s x) = inr (step s x)) ->
  forall xs acc, run h (for_each xs body acc) = inr (fold_left step xs acc).
Proof.
  intros Hbody xs. induction xs as [| x rest IH]; intros acc; simpl.
  - reflexivity.
  - rewrite run_bind, Hbody. apply IH.
Qed.

Lemma NoTry_bind (A B : Type) (p : Prog E A) (f : A -> Prog E B) :
  NoTry p -> (forall a, NoTry (f a)) -> NoTry (bind p f).
Proof.
  intros Hp Hf. induction Hp as [A a | A e | A R c k Hk IH]; simpl.
  - apply Hf.
  - constructor.
  - constructor. intros r. apply IH. exact Hf.
Qed.

Lemma NoTry_call (R : Type) (c : E R) : NoTry (call c).
Proof. unfold call. constructor. intros r. constructor. Qed.

Lemma NoTry_for_each (A S : Type) (body : S -> A -> Prog E S) :
  (forall s x, NoTry (body s x)) ->
  forall xs acc, NoTry (for_each xs body acc).
Proof.
  intros Hbody xs. induction xs as [| x rest IH]; intros acc; simpl.
  - constructor.
  - apply NoTry_bind; [apply Hbody | exact IH].
Qed.

(** A program without [try] lets every exception of a library call through. *)
Lemma NoTry_propagates (A : Type) (p : Prog E A) : NoTry p -> propagates h p.
Proof.
  intros Hp. induction Hp as [A a | A e | A R c k Hk IH];
    intros en e' Hin Hraised.
  - destruct Hin.
  - destruct Hin.
  - unfold trace, run in *. simpl in *.
    destruct (h c) as [e0 | r] eqn:Hc.
    + simpl in Hin. destruct Hin as [<- | []].
      simpl in Hraised. injection Hraised as <-.
      split; [reflexivity | exists []; reflexivity].
    + pose proof (IH r en e') as IHr. unfold trace, run in IHr.
      destruct (exec h (k r)) as [tr res]. simpl in *.
      destruct Hin as [<- | Hin]; [discriminate Hraised |].
      destruct (IHr Hin Hraised) as [Hres [before Htr]].
      split; [exact Hres |].
      eexists (_ :: before). rewrite Htr. reflexivity.
Qed.

End ProgFacts.

Ltac no_try :=
  repeat first
    [ apply NoTry_for_each; intros
    | apply NoTry_bind; intros
    | apply NoTry_call
    | apply NoTry_Ret
    | apply NoTry_Raise
    | match goal with
      | |- NoTry (match ?x with _ => _ end) => destruct x
      end ].

(** ** The setup functions against the reference library *)

Section Setup.

Import Notebook.

Lemma length_range (n : Z) : List.length (range n) = Z.to_nat n.
Proof. unfold range. rewrite length_map, length_seq. reflexivity. Qed.

Lemma np_diag_3 (b : Q) :
  np_diag (map (fun _ : Z => b) (range 3)) = [[b; 0; 0]; [0; b; 0]; [0; 0; b]].
Proof. reflexivity. Qed.

Lemma Qle_bool_false (x y : Q) : y < x -> Qle_bool x y = false.
Proof.
  intros Hlt. destruct (Qle_bool x y) eqn:Hle; [| reflexivity].
  apply Qle_bool_iff in Hle. exfalso. exact (Qlt_not_le _ _ Hlt Hle).
Qed.

Lemma Qltb_false (x y : Q) : y <= x -> Qltb x y = false.
Proof.
  intros Hle. unfold Qltb. apply Qle_bool_iff in Hle. rewrite Hle. reflexivity.
Qed.

Lemma Qeq_bool_true (x y : Q) : x == y -> Qeq_bool x y = true.
Proof. intros H. apply Qeq_bool_iff. exact H. Qed.

Lemma twice_abs_zero_le (x y : Q) : x == 0 -> 0 < y -> 2 * Qabs x <= y.
Proof.
  intros Hx Hy. rewrite Hx. apply Qlt_le_weak. exact Hy.
Qed.

(** A rectangular box with positive edges passes the library's checks. *)
Lemma check_box_rectangular (exn : string -> Exn) (a b c : Vec3) :
  snd (fst a) == 0 -> snd a == 0 -> snd b == 0 ->
  fst (fst b) == 0 -> fst (fst c) == 0 -> snd (fst c) == 0 ->
  0 < fst (fst a) -> 0 < snd (fst b) -> 0 < snd c ->
  check_box exn a b c = inr tt.
Proof.
  destruct a as [[ax ay] az], b as [[bx by_] bz], c as [[cx cy] cz]. simpl.
  intros Hay Haz Hbz Hbx Hcx Hcy Hax Hby Hcz.
  unfold check_box.
  rewrite (Qeq_bool_true Hay), (Qeq_bool_true Haz), (Qeq_bool_true Hbz).
  rewrite (Qle_bool_false Hax), (Qle_bool_false Hby), (Qle_bool_false Hcz).
  rewrite (Qltb_false (twice_abs_zero_le Hbx Hax)).
  rewrite (Qltb_false (twice_abs_zero_le Hcx Hax)).
  rewrite (Qltb_false (twice_abs_zero_le Hcy Hby)).
  reflexivity.
Qed.

Lemma fold_addParticle (mass : Q) (xs : list Z) :
  forall s : System,
    fold_left (fun (s : System) (_ : Z) =>
                 mkSystem (particleMasses s ++ [mass]) (defaultPeriodicBoxVectors s))
              xs s
    = mkSystem (particleMasses s ++ repeat mass (List.length xs))
               (defaultPeriodicBoxVectors s).
Proof.
  induction xs as [| x rest IH]; intros s; simpl.
  - rewrite app_nil_r. destruct s; reflexivity.
  - rewrite IH. simpl. rewrite <- app_assoc. reflexivity.
Qed.

(** [initialize_system] ends with the library's check of the box. *)
Lemma run_initialize_system (n_particles : Z) (mass box_size : Q) :
  run openmm (initialize_system n_particles mass box_size)
  = match check_box OpenMMException
            (box_size, 0, 0) (0, box_size, 0) (0, 0, box_size) with
    | inr _ =>
        inr (mkSystem (repeat mass (Z.to_nat n_particles))
               ((box_size, 0, 0), (0, box_size, 0), (0, 0, box_size)))
    | inl e => inl e
    end.
Proof.
  unfold initialize_system.
  rewrite run_bind, run_call. simpl openmm. cbv iota.
  rewrite run_bind.
  rewrite run_for_each with
    (step := fun (s : System) (_ : Z) =>
               mkSystem (particleMasses s ++ [mass]) (defaultPeriodicBoxVectors s))
    by reflexivity.
  rewrite fold_addParticle, length_range. simpl particleMasses.
  rewrite np_diag_3, run_call. reflexivity.
Qed.

Lemma initialize_system_returns (n_particles : Z) (mass box_size : Q) :
  0 < box_size ->
  run openmm (initialize_system n_particles mass box_size)
  = inr (mkSystem (repeat mass (Z.to_nat n_particles))
                  ((box_size, 0, 0), (0, box_size, 0), (0, 0, box_size))).
Proof.
  intros Hbox. rewrite run_initialize_system.
  rewrite check_box_rectangular; simpl; try reflexivity; exact Hbox.
Qed.

Lemma fold_NonbondedForce_addParticle (p : Q * Q * Q) (xs : list Z) :
  forall f : NonbondedForce,
    fold_left (fun (f : NonbondedForce) (_ : Z) =>
                 mkNonbondedForce (nonbondedMethod f) (particleParameters f ++ [p])
                   (cutoffDistance f) (useSwitchingFunction f) (switchingDistance f)
                   (useDispersionCorrection f))
              xs f
    = mkNonbondedForce (nonbondedMethod f)
        (particleParameters f ++ repeat p (List.length xs))
        (cutoffDistance f) (useSwitchingFunction f) (switchingDistance f)
        (useDispersionCorrection f).
Proof.
  induction xs as [| x rest IH]; intros f; simpl.
  - rewrite app_nil_r. destruct f; reflexivity.
  - rewrite IH. simpl. rewrite <- app_assoc. reflexivity.
Qed.

(** What [create_NonBonndedForce] returns. *)
Lemma create_NonBonndedForce_returns (n_particles : Z) (sigma epsilon charge : Q) :
  run openmm (create_NonBonndedForce n_particles sigma epsilon charge)
  = inr (mkNonbondedForce CutoffPeriodic
           (repeat (charge, sigma, epsilon) (Z.to_nat n_particles))
           (3 * sigma) true ((25 # 10) * sigma) true).
Proof.
  unfold create_NonBonndedForce.
  rewrite run_bind, run_call. simpl openmm. cbv iota.
  rewrite run_bind, run_call. simpl openmm. cbv iota.
  rewrite run_bind.
  rewrite run_for_each with
    (step := fun (f : NonbondedForce) (_ : Z) =>
               mkNonbondedForce (nonbondedMethod f)
                 (particleParameters f ++ [(charge, sigma, epsilon)])
                 (cutoffDistance f) (useSwitchingFunction f) (switchingDistance f)
                 (useDispersionCorrection f))
    by reflexivity.
  rewrite fold_NonbondedForce_addParticle, length_range.
  reflexivity.
Qed.

Lemma fold_argon (m : nat) :
  forall (k : nat) (top : Topology),
    List.length (residues top) = k ->
    List.length (atoms top) = k ->
    fold_left (fun (top : Topology) (i : Z) =>
                 mkTopology (chains top)
                   (residues top ++ [mkResidue "Ar" (len (residues top)) 0 i])
                   (atoms top ++ [mkAtom "Ar" argon (len (atoms top)) (len (residues top))])
                   (periodicBoxVectors top))
              (map Z.of_nat (seq k m)) top
    = mkTopology (chains top)
        (residues top ++ map argon_residue (seq k m))
        (atoms top ++ map argon_atom (seq k m))
        (periodicBoxVectors top).
Proof.
  induction m as [| m IH]; intros k top Hres Hatoms; simpl.
  - rewrite !app_nil_r. destruct top; reflexivity.
  - rewrite IH; simpl.
    + unfold len. rewrite Hres, Hatoms, <- !app_assoc. reflexivity.
    + rewrite length_app, Hres. simpl. lia.
    + rewrite length_app, Hatoms. simpl. lia.
Qed.

Lemma unit_round_trip (x : Q) (u : Unit) : mul_unit (div_unit x u) u == x.
Proof.
  unfold mul_unit, div_unit. apply Qdiv_mult_l.
  destruct u; discriminate.
Qed.

(** [create_topology] ends with the library's check of the box. *)
Lemma run_create_topology (n_particles : Z) (box_size : Q) :
  exists a b c box_vectors,
    a = (mul_unit (div_unit box_size angstrom) angstrom,
         mul_unit 0 angstrom, mul_unit 0 angstrom)
    /\ b = (mul_unit 0 angstrom, mul_unit (div_unit box_size angstrom) angstrom,
            mul_unit 0 angstrom)
    /\ c = (mul_unit 0 angstrom, mul_unit 0 angstrom,
            mul_unit (div_unit box_size angstrom) angstrom)
    /\ run openmm (create_topology n_particles box_size)
       = match check_box ValueError a b c with
         | inr _ =>
             inr (mkTopology [mkChain 0]
                    (map argon_residue (seq 0 (Z.to_nat n_particles)))
                    (map argon_atom (seq 0 (Z.to_nat n_particles)))
                    (Some box_vectors))
         | inl e => inl e
         end.
Proof.
  do 4 eexists. split; [reflexivity |]. split; [reflexivity |]. split; [reflexivity |].
  unfold create_topology.
  rewrite run_bind, run_call. simpl openmm. cbv iota.
  rewrite run_bind, run_call. simpl openmm. cbv iota.
  rewrite run_bind.
  rewrite run_for_each with
    (step := fun (top : Topology) (i : Z) =>
               mkTopology (chains top)
                 (residues top ++ [mkResidue "Ar" (len (residues top)) 0 i])
                 (atoms top ++ [mkAtom "Ar" argon (len (atoms top)) (len (residues top))])
                 (periodicBoxVectors top))
    by reflexivity.
  unfold range at 1. rewrite fold_argon by reflexivity.
  rewrite run_bind, run_call.
  change (map (map (fun x => mul_unit x angstrom))
            (np_diag (map (fun _ : Z => div_unit box_size angstrom) (range 3))))
    with [[mul_unit (div_unit box_size angstrom) angstrom;
           mul_unit 0 angstrom; mul_unit 0 angstrom];
          [mul_unit 0 angstrom; mul_unit (div_unit box_size angstrom) angstrom;
           mul_unit 0 angstrom];
          [mul_unit 0 angstrom; mul_unit 0 angstrom;
           mul_unit (div_unit box_size angstrom) angstrom]].
  cbn [openmm to_Vec3].
  destruct (check_box ValueError _ _ _); reflexivity.
Qed.

Lemma create_topology_result (n_particles : Z) (box_size : Q) (top : Topology) :
  run openmm (create_topology n_particles box_size) = inr top ->
  residues top = map argon_residue (seq 0 (Z.to_nat n_particles))
  /\ atoms top = map argon_atom (seq 0 (Z.to_nat n_particles)).
Proof.
  destruct (run_create_topology n_particles box_size)
    as [a [b [c [box_vectors [_ [_ [_ Hrun]]]]]]].
  rewrite Hrun. destruct (check_box ValueError a b c); [discriminate |].
  intros [= <-]. split; reflexivity.
Qed.

Lemma create_topology_returns (n_particles : Z) (box_size : Q) :
  0 < box_size ->
  exists top, run openmm (create_topology n_particles box_size) = inr top.
Proof.
  intros Hbox.
  destruct (run_create_topology n_particles box_size)
    as [a [b [c [box_vectors [-> [-> [-> Hrun]]]]]]].
  rewrite Hrun.
  rewrite check_box_rectangular; cbn [fst snd];
    try reflexivity; try (rewrite unit_round_trip; exact Hbox).
  eexists. reflexivity.
Qed.

End Setup.

(** ** What the setup functions build *)

Section SetupClaims.

Import Notebook.

(** C4. For a non-negative particle count the structures built for the
    same [n_particles] have that many entries: the System returned has
    [n_particles] particles, the NonbondedForce returned has [n_particles]
    parameter entries, and the Topology returned has [n_particles] residues
    and [n_particles] atoms, the i-th atom in the i-th residue.  The force is
    always returned; the System and the Topology are returned whenever the
    box size is positive. *)
Theorem C4_lengths_match_particle_count
    (n_particles : Z) (mass box_size sigma epsilon charge : Q)
    (Hn : (0 <= n_particles)%Z) :
  (forall system,
      run openmm (initialize_system n_particles mass box_size) = inr system ->
      len (particleMasses system) = n_particles)
  /\ (exists force,
        run openmm (create_NonBonndedForce n_particles sigma epsilon charge) = inr force
        /\ len (particleParameters force) = n_particles)
  /\ (forall top,
        run openmm (create_topology n_particles box_size) = inr top ->
        len (atoms top) = n_particles
        /\ len (residues top) = n_particles
        /\ map residue_index (residues top) = range n_particles
        /\ map atom_residue (atoms top) = range n_particles)
  /\ (0 < box_size ->
      exists system top,
        run openmm (initialize_system n_particles mass box_size) = inr system
        /\ run openmm (create_topology n_particles box_size) = inr top).
Proof.
  split; [| split; [| split]].
  - intros system. rewrite run_initialize_system.
    destruct (check_box _ _ _ _); [discriminate |].
    intros [= <-]. unfold len. simpl. rewrite repeat_length. apply Z2Nat.id. exact Hn.
  - eexists. split; [apply create_NonBonndedForce_returns |].
    unfold len. simpl. rewrite repeat_length. apply Z2Nat.id. exact Hn.
  - intros top Htop. destruct (create_topology_result _ _ Htop) as [-> ->].
    unfold len. rewrite !length_map, length_seq, !map_map, Z2Nat.id by exact Hn.
    repeat split; reflexivity.
  - intros Hbox. destruct (create_topology_returns n_particles Hbox) as [top Htop].
    eexists. exists top. split; [apply initialize_system_returns; exact Hbox | exact Htop].
Qed.

Lemma C4_witness :
  exists system force top,
    run openmm (initialize_system 3 (399 # 10) 5) = inr system
    /\ run openmm (create_NonBonndedForce 3 (34 # 100) (238 # 1000) 0) = inr force
    /\ run openmm (create_topology 3 5) = inr top
    /\ len (particleMasses system) = 3%Z
    /\ len (particleParameters force) = 3%Z
    /\ len (atoms top) = 3%Z
    /\ map atom_residue (atoms top) = range 3.
Proof.
  assert (Hn : (0 <= 3)%Z) by lia.
  destruct (@C4_lengths_match_particle_count 3 (399 # 10) 5 (34 # 100) (238 # 1000) 0 Hn)
    as [Hsystem [[force [Hforce Hparams]] [Htop Hreturned]]].
  destruct Hreturned as [system [top [Hs Ht]]]; [reflexivity |].
  exists system, force, top.
  destruct (Htop top Ht) as [Hatoms [_ [_ Hresidue]]].
  repeat split; try assumption. apply Hsystem. exact Hs.
Defined.

(** C7. For every particle count, mass and box size, the System returned
    by [initialize_system] has one particle per count, each with the one
    given mass, and its default periodic box is the rectangular box whose
    three edge vectors are [box_size] along x, y and z.  A System is returned
    whenever the box size is positive. *)
Theorem C7_masses_and_box (n_particles : Z) (mass box_size : Q) :
  (forall system,
      run openmm (initialize_system n_particles mass box_size) = inr system ->
      particleMasses system = repeat mass (Z.to_nat n_particles)
      /\ Forall (fun m => m = mass) (particleMasses system)
      /\ defaultPeriodicBoxVectors system
         = ((box_size, 0, 0), (0, box_size, 0), (0, 0, box_size)))
  /\ (0 < box_size ->
      exists system, run openmm (initialize_system n_particles mass box_size) = inr system).
Proof.
  split.
  - intros system. rewrite run_initialize_system.
    destruct (check_box _ _ _ _); [discriminate |].
    intros [= <-]. simpl. split; [reflexivity |]. split; [| reflexivity].
    apply Forall_forall. intros m Hm. exact (repeat_spec _ _ _ Hm).
  - intros Hbox. eexists. apply initialize_system_returns. exact Hbox.
Qed.

Lemma C7_witness :
  exists system,
    run openmm (initialize_system 3 (399 # 10) 5) = inr system
    /\ particleMasses system = [399 # 10; 399 # 10; 399 # 10]
    /\ defaultPeriodicBoxVectors system = ((5, 0, 0), (0, 5, 0), (0, 0, 5)).
Proof.
  destruct (@C7_masses_and_box 3 (399 # 10) 5) as [Hresult Hreturned].
  destruct Hreturned as [system Hrun]; [reflexivity |].
  exists system. split; [exact Hrun |].
  destruct (Hresult system Hrun) as [Hmasses [_ Hbox]].
  split; [exact Hmasses | exact Hbox].
Defined.




End SetupClaims.

(** ** The energy reporter *)

Section Reporter.

Import Notebook.
Import EnergyReporter_.

Variable h : Handler Api.

(** [report] makes its four library calls in order and then appends. *)
Lemma run_report (self : EnergyReporter) (simulation : Simulation) (state : State) :
  run h (report self simulation state) =
  match h (getPotentialEnergy state) with
  | inl e => inl e
  | inr q =>
      match h (value_in_unit q kilojoules_per_mole) with
      | inl e => inl e
      | inr pe =>
          match h (getKineticEnergy state) with
          | inl e => inl e
          | inr q' =>
              match h (value_in_unit q' kilojoules_per_mole) with
              | inl e => inl e
              | inr ke =>
                  inr (mkEnergyReporter (_reportInterval self) (_pe self ++ [pe])
                         (_ke self ++ [ke]) (_te self ++ [pe + ke]))
              end
          end
      end
  end.
Proof.
  unfold report.
  rewrite run_bind, run_call. destruct (h (getPotentialEnergy state)) as [e | q]; [reflexivity |].
  rewrite run_bind, run_call.
  destruct (h (value_in_unit q kilojoules_per_mole)) as [e | pe]; [reflexivity |].
  rewrite run_bind, run_call. destruct (h (getKineticEnergy state)) as [e | q']; [reflexivity |].
  rewrite run_bind, run_call.
  destruct (h (value_in_unit q' kilojoules_per_mole)) as [e | ke]; reflexivity.
Qed.

Lemma report_appends (self self' : EnergyReporter) (simulation : Simulation)
    (state : State) :
  run h (report self simulation state) = inr self' ->
  exists pe ke,
    self' = mkEnergyReporter (_reportInterval self) (_pe self ++ [pe])
              (_ke self ++ [ke]) (_te self ++ [pe + ke]).
Proof.
  rewrite run_report.
  destruct (h (getPotentialEnergy state)) as [e | q]; [discriminate |].
  destruct (h (value_in_unit q kilojoules_per_mole)) as [e | pe]; [discriminate |].
  destruct (h (getKineticEnergy state)) as [e | q']; [discriminate |].
  destruct (h (value_in_unit q' kilojoules_per_mole)) as [e | ke]; [discriminate |].
  intros [= <-]. exists pe, ke. reflexivity.
Qed.

Lemma run_describeNextReport (self : EnergyReporter) (simulation : Simulation) :
  _reportInterval self <> 0%Z ->
  run h (describeNextReport self simulation)
  = inr ((_reportInterval self - currentStep simulation mod _reportInterval self)%Z,
         false, false, false, true, None).
Proof.
  intros Hinterval. unfold describeNextReport, py_mod.
  destruct (Z.eqb_spec (_reportInterval self) 0) as [Heq | _]; [contradiction |].
  reflexivity.
Qed.

(** The three lists stay aligned: same length [k], and the total is the sum
    at every index. *)
Lemma report_all_aligned (calls : list (Simulation * State)) :
  forall (self self' : EnergyReporter) (k : nat),
    List.length (_pe self) = k ->
    List.length (_ke self) = k ->
    List.length (_te self) = k ->
    (forall i, (i < k)%nat -> nth i (_te self) 0 = nth i (_pe self) 0 + nth i (_ke self) 0) ->
    report_all h self calls = inr self' ->
    List.length (_pe self') = (k + List.length calls)%nat
    /\ List.length (_ke self') = (k + List.length calls)%nat
    /\ List.length (_te self') = (k + List.length calls)%nat
    /\ (forall i, (i < k + List.length calls)%nat ->
          nth i (_te self') 0 = nth i (_pe self') 0 + nth i (_ke self') 0).
Proof.
  induction calls as [| [simulation state] rest IH];
    intros self self' k Hpe Hke Hte Hsum Hrun; simpl in Hrun.
  - injection Hrun as <-. simpl. rewrite Nat.add_0_r. auto.
  - destruct (run h (report self simulation state)) as [e | self1] eqn:Hreport;
      [discriminate |].
    destruct (report_appends _ _ _ Hreport) as [pe [ke ->]].
    simpl List.length. rewrite <- Nat.add_succ_comm.
    apply (IH _ _ (S k)) in Hrun; [exact Hrun | | | |]; simpl.
    + rewrite length_app, Hpe. simpl. lia.
    + rewrite length_app, Hke. simpl. lia.
    + rewrite length_app, Hte. simpl. lia.
    + intros i Hi. destruct (Nat.eq_dec i k) as [-> | Hne].
      * rewrite !app_nth2 by lia. rewrite Hpe, Hke, Hte, Nat.sub_diag. reflexivity.
      * rewrite !app_nth1 by lia. apply Hsum. lia.
Qed.

Lemma report_all_returns (calls : list (Simulation * State)) :
  Forall (fun c => state_energy (snd c) <> None) calls ->
  forall self, exists self', report_all openmm self calls = inr self'.
Proof.
  induction 1 as [| [simulation state] rest Henergy _ IH]; intros self; simpl.
  - exists self. reflexivity.
  - unfold run at 1. simpl in Henergy.
    destruct state as [[[pe ke] |]]; [| contradiction].
    simpl. apply IH.
Qed.

End Reporter.

Section ReporterClaims.

Import Notebook.
Import EnergyReporter_.

(** C3. [describeNextReport] is driven by the interval: it returns the
    number of steps from the current step to the next multiple of the
    interval, [_reportInterval - currentStep % _reportInterval], together with
    the booleans that say which state fields to fetch (positions, velocities
    and forces not, energy yes); with an interval of 0 the modulo raises
    ZeroDivisionError.  [report] appends the potential energy, the kinetic
    energy and their sum to the three lists. *)
Theorem C3_reporter_contract
    (h : Handler Api) (self : EnergyReporter) (simulation : Simulation) (state : State) :
  (_reportInterval self <> 0%Z ->
   run h (describeNextReport self simulation)
   = inr ((_reportInterval self
           - currentStep simulation mod _reportInterval self)%Z,
          false, false, false, true, None))
  /\ (_reportInterval self = 0%Z ->
      run h (describeNextReport self simulation) = inl ZeroDivisionError)
  /\ (forall self',
        run h (report self simulation state) = inr self' ->
        exists pe ke,
          self' = mkEnergyReporter (_reportInterval self) (_pe self ++ [pe])
                    (_ke self ++ [ke]) (_te self ++ [pe + ke]))
  /\ (forall pe ke,
        state_energy state = Some (pe, ke) ->
        run openmm (report self simulation state)
        = inr (mkEnergyReporter (_reportInterval self)
                 (_pe self ++ [div_unit pe kilojoules_per_mole])
                 (_ke self ++ [div_unit ke kilojoules_per_mole])
                 (_te self ++ [div_unit pe kilojoules_per_mole
                               + div_unit ke kilojoules_per_mole]))).
Proof.
  split; [| split; [| split]].
  - apply run_describeNextReport.
  - intros Hzero. unfold describeNextReport, py_mod. rewrite Hzero. reflexivity.
  - intros self'. apply report_appends.
  - intros pe ke Henergy. rewrite run_report. simpl. rewrite Henergy. reflexivity.
Qed.

Lemma C3_witness :
  run openmm (describeNextReport (__init__ 100) (mkSimulation 250))
  = inr (50%Z, false, false, false, true, None)
  /\ run openmm (report (__init__ 100) (mkSimulation 300) (mkState (Some (1, 2))))
     = inr (mkEnergyReporter 100
              ([] ++ [div_unit 1 kilojoules_per_mole])
              ([] ++ [div_unit 2 kilojoules_per_mole])
              ([] ++ [div_unit 1 kilojoules_per_mole + div_unit 2 kilojoules_per_mole])).
Proof.
  split.
  - apply (@C3_reporter_contract openmm (__init__ 100) (mkSimulation 250)
             (mkState None)).
    simpl. lia.
  - apply (@C3_reporter_contract openmm (__init__ 100) (mkSimulation 300)
             (mkState (Some (1, 2)))).
    reflexivity.
Defined.

(** C8. For a positive report interval and any current step (a
    non-negative one in particular) the step count returned by
    [describeNextReport] lies between 1 and the interval, and the current
    step plus that count is a multiple of the interval. *)
Theorem C8_steps_to_next_report
    (h : Handler Api) (self : EnergyReporter) (simulation : Simulation)
    (Hinterval : (0 < _reportInterval self)%Z) :
  exists steps,
    run h (describeNextReport self simulation)
    = inr (steps, false, false, false, true, None)
    /\ (1 <= steps <= _reportInterval self)%Z
    /\ ((currentStep simulation + steps) mod _reportInterval self = 0)%Z.
Proof.
  eexists. split; [apply run_describeNextReport; lia |].
  pose proof (Z.mod_pos_bound (currentStep simulation) _ Hinterval) as Hbound.
  split; [lia |].
  pose proof (Z.div_mod (currentStep simulation) (_reportInterval self)) as Hdiv.
  replace (currentStep simulation
           + (_reportInterval self - currentStep simulation mod _reportInterval self))%Z
    with ((currentStep simulation / _reportInterval self + 1) * _reportInterval self)%Z
    by lia.
  apply Z.mod_mul. lia.
Qed.

Lemma C8_witness :
  exists steps,
    run openmm (describeNextReport (__init__ 100) (mkSimulation 250))
    = inr (steps, false, false, false, true, None)
    /\ (1 <= steps <= 100)%Z
    /\ ((250 + steps) mod 100 = 0)%Z.
Proof.
  apply (@C8_steps_to_next_report openmm (__init__ 100) (mkSimulation 250));
    simpl; lia.
Defined.

(** C9. After any sequence of calls of [report] on a freshly constructed
    reporter the lists [_pe], [_ke] and [_te] have one entry per call, and at
    every index the total is the sum of the potential and the kinetic
    energy.  Against the reference library the calls return whenever every
    state carries its energies. *)
Theorem C9_energy_lists_aligned
    (h : Handler Api) (reportInterval : Z) (calls : list (Simulation * State)) :
  (forall self',
      report_all h (__init__ reportInterval) calls = inr self' ->
      List.length (_pe self') = List.length calls
      /\ List.length (_ke self') = List.length calls
      /\ List.length (_te self') = List.length calls
      /\ (forall i, (i < List.length calls)%nat ->
            nth i (_te self') 0 = nth i (_pe self') 0 + nth i (_ke self') 0))
  /\ (Forall (fun c => state_energy (snd c) <> None) calls ->
      exists self', report_all openmm (__init__ reportInterval) calls = inr self').
Proof.
  split.
  - intros self' Hrun.
    apply (@report_all_aligned h calls (__init__ reportInterval) self' 0%nat);
      try reflexivity; [| exact Hrun].
    intros i Hi. inversion Hi.
  - intros Henergy. apply report_all_returns. exact Henergy.
Qed.

Lemma C9_witness :
  exists self',
    report_all openmm (__init__ 100)
      [(mkSimulation 100, mkState (Some (1, 2)));
       (mkSimulation 200, mkState (Some (3, 4)))] = inr self'
    /\ List.length (_pe self') = 2%nat
    /\ List.length (_ke self') = 2%nat
    /\ List.length (_te self') = 2%nat
    /\ nth 1 (_te self') 0 = nth 1 (_pe self') 0 + nth 1 (_ke self') 0.
Proof.
  pose proof (@C9_energy_lists_aligned openmm 100
                [(mkSimulation 100, mkState (Some (1, 2)));
                 (mkSimulation 200, mkState (Some (3, 4)))]) as [Haligned Hreturns].
  destruct Hreturns as [self' Hrun].
  - repeat constructor; simpl; discriminate.
  - exists self'. destruct (Haligned self' Hrun) as [Hpe [Hke [Hte Hsum]]].
    repeat split; try assumption. apply Hsum. simpl. lia.
Defined.

End ReporterClaims.

(** ** The Euler integrator *)

Section Integrator.

Import Notebook.
Import Engine.

Lemma run_EulerIntegrator (timestep : Q) :
  0 <= timestep ->
  run openmm (EulerIntegrator timestep)
  = inr (mkCustomIntegrator timestep
           [UpdateContextState; ComputePerDof "v" "v+dt*f/m";
            ComputePerDof "x" "x+dt*v"; ConstrainPositions; ConstrainVelocities]).
Proof.
  intros Hdt. unfold EulerIntegrator. rewrite run_bind, run_call. cbn [openmm].
  rewrite (Qltb_false Hdt). reflexivity.
Qed.

Lemma run_EulerIntegrator_negative (timestep : Q) :
  timestep < 0 ->
  run openmm (EulerIntegrator timestep)
  = inl (OpenMMException "Step size cannot be negative").
Proof.
  intros Hdt. unfold EulerIntegrator. rewrite run_bind, run_call. cbn [openmm].
  unfold Qltb. rewrite (Qle_bool_false Hdt). reflexivity.
Qed.

Lemma Qeq_bool_false (x y : Q) : ~ x == y -> Qeq_bool x y = false.
Proof.
  intros Hne. destruct (Qeq_bool x y) eqn:Heq; [| reflexivity].
  apply Qeq_bool_iff in Heq. contradiction.
Qed.

Lemma compute_velocity (dt : Q) (state : list Dof) :
  Forall (fun d => ~ mass d == 0) state ->
  forall forces,
    List.length forces = List.length state ->
    compute_per_dof dt "v" velocity_rule state forces
    = Some (map2 (fun d f => mkDof (pos d) (vel d + dt * f / mass d) (mass d))
              state forces).
Proof.
  induction 1 as [| d state Hd _ IH]; intros forces Hlen.
  - reflexivity.
  - destruct forces as [| f forces]; [discriminate |].
    simpl in Hlen. injection Hlen as Hlen.
    simpl. rewrite (IH _ Hlen), (Qeq_bool_false Hd). reflexivity.
Qed.

Lemma compute_position (dt : Q) (state : list Dof) :
  Forall (fun d => ~ mass d == 0) state ->
  forall forces,
    List.length forces = List.length state ->
    compute_per_dof dt "x" position_rule state forces
    = Some (map (fun d => mkDof (pos d + dt * vel d) (vel d) (mass d)) state).
Proof.
  induction 1 as [| d state Hd _ IH]; intros forces Hlen.
  - reflexivity.
  - destruct forces as [| f forces]; [discriminate |].
    simpl in Hlen. injection Hlen as Hlen.
    simpl. rewrite (IH _ Hlen), (Qeq_bool_false Hd). reflexivity.
Qed.

Lemma velocity_update_facts (dt : Q) (state : list Dof) :
  forall forces,
    List.length forces = List.length state ->
    let state' := map2 (fun d f => mkDof (pos d) (vel d + dt * f / mass d) (mass d))
                    state forces in
    map pos state' = map pos state
    /\ map mass state' = map mass state
    /\ List.length state' = List.length state
    /\ map (fun d => mkDof (pos d + dt * vel d) (vel d) (mass d)) state'
       = map2 (velocity_then_position dt) state forces.
Proof.
  induction state as [| d state IH]; intros forces Hlen; simpl.
  - auto.
  - destruct forces as [| f forces]; [discriminate |].
    simpl in Hlen. injection Hlen as Hlen.
    destruct (IH _ Hlen) as [Hpos [Hmass [Hlength Hmap]]].
    simpl. rewrite Hpos, Hmass, Hlength, Hmap. auto.
Qed.

Lemma Forall_mass (P : Q -> Prop) (state state' : list Dof) :
  map mass state' = map mass state ->
  Forall (fun d => P (mass d)) state -> Forall (fun d => P (mass d)) state'.
Proof.
  revert state'. induction state as [| d state IH]; intros [| d' state'] Hmap Hall;
    try discriminate; [constructor |].
  simpl in Hmap. injection Hmap as Hd Hmap.
  inversion Hall as [| ? ? Hhead Htail]; subst.
  constructor; [rewrite Hd; exact Hhead | apply IH; assumption].
Qed.

End Integrator.

Section IntegratorClaims.

Import Notebook.
Import Engine.

Lemma euler_step_computations (timestep : Q) (dyn : Dynamics) (state : list Dof) :
  0 <= timestep ->
  euler_step dyn timestep state =
  let s0 := update_context_state dyn state in
  match compute_per_dof timestep "v" velocity_rule s0 (force_field dyn (map pos s0)) with
  | Some s1 =>
      match compute_per_dof timestep "x" position_rule s1
              (force_field dyn (map pos s1)) with
      | Some s2 =>
          inr (apply_velocity_constraints dyn (apply_position_constraints dyn s2))
      | None => inl (OpenMMException "Cannot evaluate x+dt*v")
      end
  | None => inl (OpenMMException "Cannot evaluate v+dt*f/m")
  end.
Proof.
  intros Hdt. unfold euler_step. rewrite run_EulerIntegrator by exact Hdt.
  unfold integrator_step. cbn [stepSize computations do_computations do_computation].
  change (Lepton.parse "v+dt*f/m") with (Some velocity_rule).
  change (Lepton.parse "x+dt*v") with (Some position_rule).
  cbv iota beta zeta.
  destruct (compute_per_dof timestep "v" velocity_rule _ _) as [s1 |]; [| reflexivity].
  destruct (compute_per_dof timestep "x" position_rule _ _) as [s2 |]; reflexivity.
Qed.

(** The closed form of one step, for any constraints and any forces that
    update the state: the state the forces leave, the velocities set from the
    forces at its positions, the positions set from the new velocities, and
    the two projections. *)
Lemma euler_step_closed_form (timestep : Q) (dyn : Dynamics) (state : list Dof) :
  0 <= timestep ->
  Forall (fun d => ~ mass d == 0) (update_context_state dyn state) ->
  List.length (force_field dyn (map pos (update_context_state dyn state)))
  = List.length (update_context_state dyn state) ->
  euler_step dyn timestep state
  = inr (apply_velocity_constraints dyn
           (apply_position_constraints dyn
              (map (fun d => mkDof (pos d + timestep * vel d) (vel d) (mass d))
                 (map2 (fun d f => mkDof (pos d) (vel d + timestep * f / mass d) (mass d))
                    (update_context_state dyn state)
                    (force_field dyn (map pos (update_context_state dyn state))))))).
Proof.
  intros Hdt Hmass Hforces.
  rewrite euler_step_computations by exact Hdt. cbv zeta.
  rewrite (compute_velocity timestep Hmass _ Hforces).
  destruct (velocity_update_facts timestep _ _ Hforces) as [Hpos [Hm [Hlen _]]].
  rewrite Hpos, compute_position.
  - reflexivity.
  - exact (Forall_mass (fun m => ~ m == 0) _ Hm Hmass).
  - rewrite Hlen. exact Hforces.
Qed.

(** C1. Whenever [EulerIntegrator] returns, for whatever timestep, the
    integrator it built is exactly the sequence: let the forces update the
    context state, set v to v + dt*f/m, set x to x + dt*v, constrain the
    positions, constrain the velocities; it returns for every timestep that
    is not negative (the library refuses a negative one).  One step of it does
    these five things in that order and nothing else: starting from the state
    the forces leave, every velocity becomes v + dt*f/m with the force at the
    current positions, then every position becomes x + dt*v with that new
    velocity, then the positions and then the velocities are projected on the
    constraints. *)
Theorem C1_euler_integrator_steps (timestep : Q) :
  (forall integrator,
      run openmm (EulerIntegrator timestep) = inr integrator ->
      integrator
      = mkCustomIntegrator timestep
          [UpdateContextState; ComputePerDof "v" "v+dt*f/m";
           ComputePerDof "x" "x+dt*v"; ConstrainPositions; ConstrainVelocities])
  /\ (0 <= timestep ->
      exists integrator, run openmm (EulerIntegrator timestep) = inr integrator)
  /\ Lepton.parse "v+dt*f/m" = Some velocity_rule
  /\ Lepton.parse "x+dt*v" = Some position_rule
  /\ (0 <= timestep ->
      forall (dyn : Dynamics) (state : list Dof),
        Forall (fun d => ~ mass d == 0) (update_context_state dyn state) ->
        List.length (force_field dyn (map pos (update_context_state dyn state)))
        = List.length (update_context_state dyn state) ->
        euler_step dyn timestep state
        = inr (apply_velocity_constraints dyn
                 (apply_position_constraints dyn
                    (map (fun d => mkDof (pos d + timestep * vel d) (vel d) (mass d))
                       (map2 (fun d f =>
                                mkDof (pos d) (vel d + timestep * f / mass d) (mass d))
                          (update_context_state dyn state)
                          (force_field dyn
                             (map pos (update_context_state dyn state)))))))).
Proof.
  split; [| split; [| split; [| split]]].
  - intros integrator. destruct (Qlt_le_dec timestep 0) as [Hneg | Hdt].
    + rewrite run_EulerIntegrator_negative by exact Hneg. discriminate.
    + rewrite run_EulerIntegrator by exact Hdt. intros [= <-]. reflexivity.
  - intros Hdt. eexists. apply run_EulerIntegrator. exact Hdt.
  - reflexivity.
  - reflexivity.
  - intros Hdt dyn state. apply euler_step_closed_form. exact Hdt.
Qed.

Lemma C1_witness :
  (exists integrator, run openmm (EulerIntegrator (1 # 1000)) = inr integrator)
  /\ euler_step (uniform_force 1) (1 # 1000) [mkDof 0 0 1]
     = inr [mkDof (0 + (1 # 1000) * (0 + (1 # 1000) * 1 / 1))
                  (0 + (1 # 1000) * 1 / 1) 1].
Proof.
  assert (Hdt : 0 <= 1 # 1000) by (unfold Qle; simpl; lia).
  destruct (C1_euler_integrator_steps (1 # 1000)) as [_ [Hreturns [_ [_ Hstep]]]].
  split; [exact (Hreturns Hdt) |].
  apply (Hstep Hdt (uniform_force 1) [mkDof 0 0 1]).
  - constructor; [| constructor]. unfold Qeq. simpl. lia.
  - reflexivity.
Defined.

(** C2, as the code has it.  On a system without constraints, all masses
    non-zero, and for a timestep that is not negative, one step of the Euler
    integrator maps every degree of freedom (x, v) with force f and mass m
    to (x + dt*(v + dt*f/m), v + dt*f/m): the
    velocity is updated first and the new position is computed from the
    updated velocity. *)
Theorem C2_position_from_updated_velocity
    (dyn : Dynamics) (dt : Q) (state : list Dof)
    (Hdt : 0 <= dt)
    (Hfree : unconstrained dyn)
    (Hmass : Forall (fun d => ~ mass d == 0) state)
    (Hforces : List.length (force_field dyn (map pos state)) = List.length state) :
  euler_step dyn dt state
  = inr (map2 (velocity_then_position dt) state (force_field dyn (map pos state))).
Proof.
  rewrite euler_step_computations by exact Hdt. cbv zeta.
  destruct (Hfree state) as [-> _].
  rewrite (compute_velocity dt Hmass _ Hforces).
  destruct (velocity_update_facts dt state _ Hforces) as [Hpos [Hm [Hlen Hmap]]].
  rewrite Hpos, compute_position.
  - rewrite Hmap.
    destruct (Hfree (map2 (velocity_then_position dt) state
                       (force_field dyn (map pos state)))) as [_ [-> ->]].
    reflexivity.
  - exact (Forall_mass (fun m => ~ m == 0) _ Hm Hmass).
  - rewrite Hlen. exact Hforces.
Qed.

Lemma C2_witness :
  euler_step (uniform_force 1) 1 [mkDof 0 0 1]
  = inr (map2 (velocity_then_position 1) [mkDof 0 0 1]
           (force_field (uniform_force 1) (map pos [mkDof 0 0 1]))).
Proof.
  apply (@C2_position_from_updated_velocity (uniform_force 1) 1 [mkDof 0 0 1]).
  - unfold Qle. simpl. lia.
  - intros state. simpl. repeat split; reflexivity.
  - constructor; [| constructor]. unfold Qeq. simpl. lia.
  - reflexivity.
Defined.

(** C2, as the specification words it, fails: with x = 0, v = 0, f = 1, m = 1 and
    dt = 1 on an unconstrained system, forward Euler leaves the position at
    x + dt*v = 0, while one step of the integrator moves it to 1. *)
Lemma C2_counterexample :
  unconstrained (uniform_force 1)
  /\ exists d',
       euler_step (uniform_force 1) 1 [mkDof 0 0 1] = inr [d']
       /\ pos d' == 1
       /\ pos (forward_euler 1 (mkDof 0 0 1) 1) == 0
       /\ euler_step (uniform_force 1) 1 [mkDof 0 0 1]
          <> inr [forward_euler 1 (mkDof 0 0 1) 1].
Proof.
  split.
  - intros state. simpl. repeat split; reflexivity.
  - eexists. split; [reflexivity |]. split; [reflexivity |]. split; [reflexivity |].
    intros Heq. vm_compute in Heq. discriminate Heq.
Qed.

End IntegratorClaims.

(** ** The order of the stages in the notebooks' runs *)

Section PipelineClaims.

Import Runs.

Lemma add_pair_not_nil (p : Stage * Stage) (l : list (Stage * Stage)) :
  add_pair p l <> [].
Proof.
  unfold add_pair. destruct l as [| q l]; simpl.
  - discriminate.
  - destruct (same_pair p q || existsb (same_pair p) l); discriminate.
Qed.

Lemma later_stages_none (a : Stage) (rest : list Stage) :
  forall acc,
    fold_left (fun acc b =>
                 if (stage_rank b <? stage_rank a)%nat then add_pair (a, b) acc else acc)
              rest acc = []
    <-> acc = [] /\ forallb (fun b => (stage_rank a <=? stage_rank b)%nat) rest = true.
Proof.
  induction rest as [| b rest IH]; intros acc; simpl.
  - tauto.
  - rewrite IH. destruct (Nat.ltb_spec (stage_rank b) (stage_rank a)) as [Hlt | Hge].
    + assert (Hleb : (stage_rank a <=? stage_rank b)%nat = false)
        by (apply Nat.leb_gt; exact Hlt).
      rewrite Hleb. simpl. split.
      * intros [Hnil _]. exfalso. exact (add_pair_not_nil _ _ Hnil).
      * intros [_ Hfalse]. discriminate Hfalse.
    + assert (Hleb : (stage_rank a <=? stage_rank b)%nat = true)
        by (apply Nat.leb_le; exact Hge).
      rewrite Hleb. simpl. tauto.
Qed.

Lemma out_of_order_none (l : list Stage) :
  forall acc, out_of_order l acc = [] <-> acc = [] /\ in_order l = true.
Proof.
  induction l as [| a rest IH]; intros acc; simpl.
  - tauto.
  - rewrite IH, later_stages_none, andb_true_iff. tauto.
Qed.

(** A run follows the pipeline exactly when no pair of stages is out of
    order. *)
Lemma follows_pipeline_iff (run : list Statement) :
  follows_pipeline run = true <-> violations run = [].
Proof.
  unfold follows_pipeline, violations. rewrite out_of_order_none. tauto.
Qed.

(** C5, as the notebooks have it.  Every run of the integrator notebook
    performs the stages of the pipeline in the stated order.  The two runs of
    the droplet notebook do not: the normal run visualises the system before
    it minimises, attaches reporters, sets velocities, advances and loads the
    trajectory, and sets the velocities after minimising and attaching the
    reporters; the spherical run attaches the restraining force after the
    integrator is picked.  These are the only stages out of order. *)
Theorem C5_pipeline_order :
  Forall (fun run => follows_pipeline run = true) integrator_notebook_runs
  /\ Forall (fun run => violations run = []) integrator_notebook_runs
  /\ violations droplet_normal_run
     = [(Visualize, Minimize); (Visualize, AttachReporters);
        (Visualize, SetInitialState); (Visualize, AdvanceSteps);
        (Visualize, LoadTrajectory); (Minimize, SetInitialState);
        (AttachReporters, SetInitialState)]
  /\ violations droplet_spherical_run = [(PickIntegrator, AttachForceField)].
Proof.
  split; [| split; [| split]].
  - repeat constructor.
  - repeat constructor.
  - reflexivity.
  - reflexivity.
Qed.

(** C5, as the specification words it, fails on the droplet notebook's normal run:
    it visualises (stage 10) before it minimises (stage 6). *)
Lemma C5_counterexample :
  In droplet_normal_run all_runs
  /\ follows_pipeline droplet_normal_run = false
  /\ ~ Forall (fun run => follows_pipeline run = true) all_runs.
Proof.
  split; [| split].
  - unfold all_runs. apply in_or_app. right. left. reflexivity.
  - reflexivity.
  - intros Hall. rewrite Forall_forall in Hall.
    assert (Hin : In droplet_normal_run all_runs)
      by (unfold all_runs; apply in_or_app; right; left; reflexivity).
    specialize (Hall _ Hin). discriminate Hall.
Qed.

End PipelineClaims.

(** ** Exceptions *)

Section ExceptionClaims.

Import Notebook.
Import EnergyReporter_.

(** A program that does catch does not let the exception through: the
    lookup of an unknown element raises, the handler returns argon. *)
Example try_except_recovers :
  ~ propagates openmm
      (Try (call (Element_getBySymbol "Zz")) (fun _ => Ret argon) (fun x => Ret x)).
Proof.
  intros Hprop.
  destruct (Hprop (log_of (Element_getBySymbol "Zz") (inl (KeyError "Zz")))
              (KeyError "Zz")) as [Hrun _].
  - left. reflexivity.
  - reflexivity.
  - discriminate Hrun.
Qed.

(** C6. None of the functions and methods of the notebooks contains a
    [try]: whatever the library does, when one of its calls raises an
    exception that call is the last one made and the function ends with the
    same exception. *)
Theorem C6_exceptions_propagate
    (h : Handler Api) (hm : Handler UnitMath)
    (n_particles : Z) (mass box_size sigma epsilon charge timestep : Q)
    (box_vectors : list (list Q))
    (self : EnergyReporter) (simulation : Simulation) (state : State) :
  (NoTry (initialize_system n_particles mass box_size)
   /\ propagates h (initialize_system n_particles mass box_size))
  /\ (NoTry (create_NonBonndedForce n_particles sigma epsilon charge)
      /\ propagates h (create_NonBonndedForce n_particles sigma epsilon charge))
  /\ (NoTry (create_topology n_particles box_size)
      /\ propagates h (create_topology n_particles box_size))
  /\ (NoTry (boxvectors2length box_vectors)
      /\ propagates hm (boxvectors2length box_vectors))
  /\ (NoTry (EulerIntegrator timestep)
      /\ propagates h (EulerIntegrator timestep))
  /\ (NoTry (describeNextReport self simulation)
      /\ propagates h (describeNextReport self simulation))
  /\ (NoTry (report self simulation state)
      /\ propagates h (report self simulation state)).
Proof.
  assert (Hboth : forall (E : Type -> Type) (l : Handler E) (A : Type) (p : Prog E A),
             NoTry p -> NoTry p /\ propagates l p)
    by (intros E l A p Hp; split; [exact Hp | apply NoTry_propagates; exact Hp]).
  split; [| split; [| split; [| split; [| split; [| split]]]]]; apply Hboth;
    unfold initialize_system, create_NonBonndedForce, create_topology,
      boxvectors2length, unpack3, truediv, EulerIntegrator, describeNextReport,
      py_mod, report;
    no_try.
Qed.

Lemma C6_witness :
  run openmm (initialize_system 0 1 (-5))
  = inl (OpenMMException "Periodic box vectors must be in reduced form.").
Proof.
  destruct (@C6_exceptions_propagate openmm (fun R _ => inl ZeroDivisionError)
              0 1 (-5) 1 1 0 1 [] (__init__ 100) (mkSimulation 0) (mkState None))
    as [[_ Hpropagates] _].
  apply (Hpropagates
           (log_of (System_setDefaultPeriodicBoxVectors
                      (mkSystem [] ((2, 0, 0), (0, 2, 0), (0, 0, 2)))
                      [-5; 0; 0] [0; -5; 0] [0; 0; -5])
                   (inl (OpenMMException "Periodic box vectors must be in reduced form.")))).
  - right. left. reflexivity.
  - reflexivity.
Defined.

End ExceptionClaims.

(** * Further properties of the notebooks' code *)

(** ** Initial positions *)

Section PositionFacts.

Import Cells.

Lemma Forall_rows (P P' : Q -> Prop) (g : Q -> Q) (rand : list (list Q)) :
  (forall r, P r -> P' (g r)) ->
  Forall (fun row => List.length row = 3%nat /\ Forall P row) rand ->
  Forall (fun row => List.length row = 3%nat /\ Forall P' row) (map (map g) rand).
Proof.
  intros Hg Hrand. apply Forall_map.
  eapply Forall_impl; [| exact Hrand].
  intros row [Hlen Hrow]. split.
  - rewrite length_map. exact Hlen.
  - apply Forall_map. eapply Forall_impl; [| exact Hrow]. exact Hg.
Qed.

(** X1. The droplet notebook places every particle inside the box with a
    margin of [space] on each side: when twice the margin is at most the box
    size, the positions are [n_particles] rows of three coordinates, each at
    least [space] and at most [(box_size - space*2) + space], the value of the
    expression at a sample of 1 (in exact arithmetic, [box_size - space]). *)
Theorem droplet_positions_keep_margin
    (n_particles : Z) (box_size space : Q) (rand : list (list Q))
    (Hroom : space * 2 <= box_size)
    (Hrand : unit_samples n_particles rand) :
  List.length (droplet_positions box_size space rand) = Z.to_nat n_particles
  /\ Forall (fun row => List.length row = 3%nat
                        /\ Forall (fun p => space <= p
                                            /\ p <= (box_size - space * 2) + space) row)
            (droplet_positions box_size space rand).
Proof.
  destruct Hrand as [Hlen Hrows]. unfold droplet_positions. split.
  - rewrite length_map. exact Hlen.
  - apply Forall_rows with (P := fun r => 0 <= r /\ r < 1); [| exact Hrows].
    intros r [Hlo Hhi]. split; nra.
Qed.

Lemma droplet_positions_keep_margin_witness :
  List.length (droplet_positions (75 # 10) 1 [[0; 1 # 2; 9 # 10]]) = Z.to_nat 1
  /\ Forall (fun row => List.length row = 3%nat
                        /\ Forall (fun p => 1 <= p /\ p <= ((75 # 10) - 1 * 2) + 1) row)
            (droplet_positions (75 # 10) 1 [[0; 1 # 2; 9 # 10]]).
Proof.
  apply (@droplet_positions_keep_margin 1 (75 # 10) 1 [[0; 1 # 2; 9 # 10]]).
  - unfold Qle. simpl. lia.
  - split; [reflexivity |].
    repeat constructor; unfold Qle, Qlt; simpl; lia.
Defined.

(** X2. The integrator notebook places every particle inside the box: for a
    positive box size the positions are [n_particles] rows of three
    coordinates, each at least 0 and less than [box_size]. *)
Theorem bulk_positions_inside_box
    (n_particles : Z) (box_size : Q) (rand : list (list Q))
    (Hbox : 0 < box_size)
    (Hrand : unit_samples n_particles rand) :
  List.length (bulk_positions box_size rand) = Z.to_nat n_particles
  /\ Forall (fun row => List.length row = 3%nat
                        /\ Forall (fun p => 0 <= p /\ p < box_size) row)
            (bulk_positions box_size rand).
Proof.
  destruct Hrand as [Hlen Hrows]. unfold bulk_positions. split.
  - rewrite length_map. exact Hlen.
  - apply Forall_rows with (P := fun r => 0 <= r /\ r < 1); [| exact Hrows].
    intros r [Hlo Hhi]. split; nra.
Qed.

Lemma bulk_positions_inside_box_witness :
  List.length (bulk_positions 5 [[0; 1 # 2; 9 # 10]]) = Z.to_nat 1
  /\ Forall (fun row => List.length row = 3%nat
                        /\ Forall (fun p => 0 <= p /\ p < 5) row)
            (bulk_positions 5 [[0; 1 # 2; 9 # 10]]).
Proof.
  apply (@bulk_positions_inside_box 1 5 [[0; 1 # 2; 9 # 10]]).
  - reflexivity.
  - split; [reflexivity |].
    repeat constructor; unfold Qle, Qlt; simpl; lia.
Defined.

(** X3. The energy expression of the spherical restraint measures the y
    coordinate from [x0]: the template names [x0] twice and [y0] never, so
    the value given for [y0] does not reach the expression. *)
Theorem spherical_restraint_ignores_y0 (r0 x0 y0 z0 : string) :
  spherical_restraint_expression r0 x0 y0 z0
  = inr ("10*max(0, r-" ++ r0 ++ ")^2; r=sqrt((x-" ++ x0 ++ ")^2+(y-" ++ x0
         ++ ")^2+(z-" ++ z0 ++ ")^2)")%string.
Proof. reflexivity. Qed.

End PositionFacts.

(** ** The reporter's schedule *)

Section ScheduleFacts.

Import Notebook.
Import EnergyReporter_.

(** X4. With a report interval that is not positive [describeNextReport]
    never answers a positive step count: an interval of 0 raises
    ZeroDivisionError, a negative interval gives a count between the interval
    and -1. *)
Theorem describeNextReport_nonpositive_interval
    (h : Handler Api) (self : EnergyReporter) (simulation : Simulation)
    (Hinterval : (_reportInterval self <= 0)%Z) :
  (_reportInterval self = 0%Z
   /\ run h (describeNextReport self simulation) = inl ZeroDivisionError)
  \/ (exists steps,
         run h (describeNextReport self simulation)
         = inr (steps, false, false, false, true, None)
         /\ (_reportInterval self <= steps <= -1)%Z).
Proof.
  destruct (Z.eq_dec (_reportInterval self) 0) as [Hzero | Hneg].
  - left. split; [exact Hzero |].
    unfold describeNextReport, py_mod. rewrite Hzero. reflexivity.
  - right. eexists. split; [apply run_describeNextReport; exact Hneg |].
    assert (Hlt : (_reportInterval self < 0)%Z) by lia.
    pose proof (Z.mod_neg_bound (currentStep simulation) _ Hlt). lia.
Qed.

Lemma describeNextReport_nonpositive_interval_witness :
  (0 = 0 /\ run openmm (describeNextReport (__init__ 0) (mkSimulation 7))
            = inl ZeroDivisionError)%Z
  \/ (exists steps,
         run openmm (describeNextReport (__init__ 0) (mkSimulation 7))
         = inr (steps, false, false, false, true, None)
         /\ (0 <= steps <= -1)%Z).
Proof.
  apply (@describeNextReport_nonpositive_interval openmm (__init__ 0) (mkSimulation 7)).
  simpl. lia.
Defined.

(** X5. Reports are a full interval apart: for a positive interval, once the
    simulation has advanced by the step count [describeNextReport] answered,
    the next answer is the interval itself. *)
Theorem describeNextReport_then_full_interval
    (h : Handler Api) (self : EnergyReporter) (simulation : Simulation)
    (Hinterval : (0 < _reportInterval self)%Z) :
  exists steps,
    run h (describeNextReport self simulation)
    = inr (steps, false, false, false, true, None)
    /\ run h (describeNextReport self (mkSimulation (currentStep simulation + steps)))
       = inr (_reportInterval self, false, false, false, true, None).
Proof.
  eexists. split; [apply run_describeNextReport; lia |].
  rewrite run_describeNextReport by lia. simpl currentStep.
  pose proof (Z.div_mod (currentStep simulation) (_reportInterval self)) as Hdiv.
  replace (currentStep simulation
           + (_reportInterval self - currentStep simulation mod _reportInterval self))%Z
    with ((currentStep simulation / _reportInterval self + 1) * _reportInterval self)%Z
    by lia.
  rewrite Z.mod_mul by lia. rewrite Z.sub_0_r. reflexivity.
Qed.

Lemma describeNextReport_then_full_interval_witness :
  exists steps,
    run openmm (describeNextReport (__init__ 100) (mkSimulation 250))
    = inr (steps, false, false, false, true, None)
    /\ run openmm (describeNextReport (__init__ 100) (mkSimulation (250 + steps)))
       = inr (100%Z, false, false, false, true, None).
Proof.
  apply (@describeNextReport_then_full_interval openmm (__init__ 100) (mkSimulation 250)).
  simpl. lia.
Defined.

End ScheduleFacts.

(** ** [boxvectors2length] *)

Section BoxFacts.

Import Notebook.
Import Cells.

Variable hm : Handler UnitMath.

Lemma exec_call_bind (R A : Type) (c : UnitMath R) (f : R -> Prog UnitMath A) :
  exec hm (bind (call c) f) =
  match hm c with
  | inl e => ([log_of c (inl e)], inl e)
  | inr r => let (tr, res) := exec hm (f r) in (log_of c (inr r) :: tr, res)
  end.
Proof. reflexivity. Qed.

Lemma exec_truediv_bind (A : Type) (x y : Q) (f : Q -> Prog UnitMath A) :
  exec hm (bind (truediv x y) f) =
  if Qeq_bool y 0 then ([], inl ZeroDivisionError) else exec hm (f (x / y)).
Proof. unfold truediv. destruct (Qeq_bool y 0); reflexivity. Qed.

Ltac bad_shape H :=
  unfold three_by_three in H; simpl in H;
  rewrite ?andb_false_r, ?andb_false_l in H; discriminate H.

Ltac refused :=
  split;
  [ intros _; eexists; split; reflexivity
  | let H := fresh in intros H; exfalso; bad_shape H ].

(** X6. A box that is not three rows of three numbers is refused before
    any library function is called: [boxvectors2length] raises a ValueError
    and its log of calls is empty; on a three-by-three box it does call the
    library. *)
Theorem boxvectors2length_shape (box_vectors : list (list Q)) :
  (three_by_three box_vectors = false ->
   exists msg,
     run hm (boxvectors2length box_vectors) = inl (ValueError msg)
     /\ trace hm (boxvectors2length box_vectors) = [])
  /\ (three_by_three box_vectors = true ->
      trace hm (boxvectors2length box_vectors) <> []).
Proof.
  unfold run, trace, boxvectors2length.
  destruct box_vectors as [| row1 [| row2 [| row3 [| ? ?]]]]; try refused.
  destruct row1 as [| lx [| u1 [| u2 [| ? ?]]]]; try refused.
  destruct row2 as [| xy [| ly [| u3 [| ? ?]]]]; try refused.
  destruct row3 as [| xz [| yz [| lz [| ? ?]]]]; try refused.
  split; [intros H; discriminate H | intros _].
  cbn [unpack3 bind]. rewrite exec_call_bind.
  destruct (hm (unit_sqrt _)); [discriminate |].
  destruct (exec hm _). discriminate.
Qed.

Lemma run_truediv_bind (A : Type) (x y : Q) (f : Q -> Prog UnitMath A) :
  run hm (bind (truediv x y) f) =
  if Qeq_bool y 0 then inl ZeroDivisionError else run hm (f (x / y)).
Proof. unfold truediv. destruct (Qeq_bool y 0); reflexivity. Qed.

Lemma trace_call_bind (R A : Type) (c : UnitMath R) (f : R -> Prog UnitMath A) :
  trace hm (bind (call c) f) =
  log_of c (hm c) :: match hm c with
                     | inl _ => []
                     | inr r => trace hm (f r)
                     end.
Proof.
  unfold trace. rewrite exec_call_bind.
  destruct (hm c) as [e | r]; [reflexivity |].
  destruct (exec hm (f r)). reflexivity.
Qed.

Lemma trace_truediv_bind (A : Type) (x y : Q) (f : Q -> Prog UnitMath A) :
  trace hm (bind (truediv x y) f) =
  if Qeq_bool y 0 then [] else trace hm (f (x / y)).
Proof. unfold trace. rewrite exec_truediv_bind. destruct (Qeq_bool y 0); reflexivity. Qed.

Lemma product_nonzero (b c : Q) :
  Qeq_bool (b * c) 0 = false -> Qeq_bool b 0 = false /\ Qeq_bool c 0 = false.
Proof.
  intros Hbc. split.
  - destruct (Qeq_bool b 0) eqn:Hb; [| reflexivity].
    apply Qeq_bool_iff in Hb. rewrite <- Hbc. symmetry. apply Qeq_bool_iff.
    rewrite Hb. ring.
  - destruct (Qeq_bool c 0) eqn:Hc; [| reflexivity].
    apply Qeq_bool_iff in Hc. rewrite <- Hbc. symmetry. apply Qeq_bool_iff.
    rewrite Hc. ring.
Qed.

Ltac library_call Hlib :=
  rewrite run_bind, run_call;
  let H := fresh "Hcall" in
  match goal with
  | |- context [match hm ?c with _ => _ end] => destruct (hm c) as [? | ?] eqn:H
  end;
  [intros Hrun; injection Hrun as Hrun; rewrite Hrun in H; exact (Hlib _ _ H) |].

(** X7. ZeroDivisionError comes from a degenerate box only.  Given a
    library that does not raise it itself, [boxvectors2length] raises
    ZeroDivisionError exactly when the product of the two lengths the library
    computed for the second and third box vector is zero; it is raised at the
    first quotient, after two library calls, and no angle is computed. *)
Theorem boxvectors2length_zero_division
    (lx u1 u2 xy ly u3 xz yz lz : Q)
    (Hlib : forall (R : Type) (c : UnitMath R), hm c <> inl ZeroDivisionError) :
  (run hm (boxvectors2length [[lx; u1; u2]; [xy; ly; u3]; [xz; yz; lz]])
   = inl ZeroDivisionError <-> degenerate_box hm xy ly xz yz lz)
  /\ (degenerate_box hm xy ly xz yz lz ->
      List.length (trace hm (boxvectors2length [[lx; u1; u2]; [xy; ly; u3]; [xz; yz; lz]]))
      = 2%nat).
Proof.
  unfold degenerate_box, boxvectors2length. cbn [unpack3 bind]. split.
  - rewrite run_bind, run_call.
    destruct (hm (unit_sqrt (ly ^ 2 + xy ^ 2))) as [e | b] eqn:Hb.
    { split; [intros [= ->]; exfalso; exact (Hlib _ _ Hb)
             | intros (b' & c' & Hb' & _); discriminate Hb']. }
    rewrite run_bind, run_call.
    destruct (hm (unit_sqrt (lz ^ 2 + xz ^ 2 + yz ^ 2))) as [e | c] eqn:Hc.
    { split; [intros [= ->]; exfalso; exact (Hlib _ _ Hc)
             | intros (b' & c' & _ & Hc' & _); discriminate Hc']. }
    rewrite run_truediv_bind.
    destruct (Qeq_bool (b * c) 0) eqn:Hbc.
    { split; [intros _ | reflexivity].
      exists b, c. repeat split. apply Qeq_bool_iff. exact Hbc. }
    split.
    + destruct (product_nonzero _ _ Hbc) as [Hb0 Hc0]. intros Hrun. exfalso.
      revert Hrun.
      library_call Hlib. library_call Hlib.
      rewrite run_truediv_bind, Hc0.
      library_call Hlib. library_call Hlib.
      rewrite run_truediv_bind, Hb0.
      library_call Hlib. library_call Hlib. library_call Hlib. library_call Hlib.
      intros Hrun. discriminate Hrun.
    + intros (b' & c' & [= <-] & [= <-] & Hzero).
      apply Qeq_bool_iff in Hzero. rewrite Hzero in Hbc. discriminate Hbc.
  - intros (b & c & Hb & Hc & Hzero).
    rewrite trace_call_bind, Hb, trace_call_bind, Hc, trace_truediv_bind.
    apply Qeq_bool_iff in Hzero. rewrite Hzero. reflexivity.
Qed.

(** X8. When the third box vector lies along z (its x and y components
    are zero), every angle is computed from a zero argument, whatever the
    shear [xy] of the second vector: every call of [acos] in the log has an
    argument equal to 0. *)
Theorem boxvectors2length_third_vector_along_z
    (lx u1 u2 xy ly u3 xz yz lz : Q) (Hxz : xz == 0) (Hyz : yz == 0) :
  Forall no_angle_but_zero
    (trace hm (boxvectors2length [[lx; u1; u2]; [xy; ly; u3]; [xz; yz; lz]])).
Proof.
  unfold boxvectors2length. cbn [unpack3 bind].
  repeat first
    [ apply Forall_nil
    | rewrite trace_truediv_bind; destruct (Qeq_bool _ 0)
    | rewrite trace_call_bind; apply Forall_cons;
      [ intros x Hx; try discriminate Hx; injection Hx as <-
      | destruct (hm _) ] ].
  - rewrite Hxz, Hyz. unfold Qdiv. ring.
  - rewrite Hxz. unfold Qdiv. ring.
  - rewrite Hyz. unfold Qdiv. ring.
Qed.

End BoxFacts.

Lemma boxvectors2length_shape_witness :
  (exists msg,
      run Cells.echo_unit_math (Notebook.boxvectors2length [[1; 0; 0]; [0; 1; 0]])
      = inl (ValueError msg)
      /\ trace Cells.echo_unit_math (Notebook.boxvectors2length [[1; 0; 0]; [0; 1; 0]])
         = [])
  /\ trace Cells.echo_unit_math
       (Notebook.boxvectors2length [[1; 0; 0]; [0; 1; 0]; [0; 0; 1]]) <> [].
Proof.
  split.
  - apply (@boxvectors2length_shape Cells.echo_unit_math [[1; 0; 0]; [0; 1; 0]]).
    reflexivity.
  - apply (@boxvectors2length_shape Cells.echo_unit_math [[1; 0; 0]; [0; 1; 0]; [0; 0; 1]]).
    reflexivity.
Defined.

Lemma boxvectors2length_zero_division_witness :
  run Cells.echo_unit_math (Notebook.boxvectors2length [[1; 0; 0]; [0; 0; 0]; [0; 0; 1]])
  = inl ZeroDivisionError
  /\ List.length (trace Cells.echo_unit_math
                    (Notebook.boxvectors2length [[1; 0; 0]; [0; 0; 0]; [0; 0; 1]]))
     = 2%nat.
Proof.
  assert (Hlib : forall (R : Type) (c : UnitMath R),
             Cells.echo_unit_math c <> inl ZeroDivisionError)
    by (intros R c; destruct c; simpl; discriminate).
  assert (Hdegenerate : Cells.degenerate_box Cells.echo_unit_math 0 0 0 0 1)
    by (exists 0, 1; repeat split; reflexivity).
  destruct (@boxvectors2length_zero_division Cells.echo_unit_math 1 0 0 0 0 0 0 0 1 Hlib)
    as [Hiff Hlog].
  split; [apply Hiff; exact Hdegenerate | apply Hlog; exact Hdegenerate].
Defined.

Lemma boxvectors2length_third_vector_along_z_witness :
  Forall Cells.no_angle_but_zero
    (trace Cells.echo_unit_math
       (Notebook.boxvectors2length [[5; 0; 0]; [1; 5; 0]; [0; 0; 5]])).
Proof.
  apply (@boxvectors2length_third_vector_along_z Cells.echo_unit_math 5 0 0 1 5 0 0 0 5);
    reflexivity.
Defined.

(** ** The reporter's lists *)

Section ListFacts.

Import Notebook.
Import EnergyReporter_.
Import Cells.

(** X9. [report] only appends: after any sequence of calls that return, on
    any reporter and against any library, the interval is unchanged and each
    list is the old list followed by one new entry per call, the new totals
    being the sums of the new potential and kinetic energies. *)
Theorem report_all_appends
    (h : Handler Api) (calls : list (Simulation * State))
    (self self' : EnergyReporter)
    (Hrun : report_all h self calls = inr self') :
  _reportInterval self' = _reportInterval self
  /\ exists pes kes,
       List.length pes = List.length calls
       /\ List.length kes = List.length calls
       /\ _pe self' = _pe self ++ pes
       /\ _ke self' = _ke self ++ kes
       /\ _te self' = _te self ++ Engine.map2 Qplus pes kes.
Proof.
  revert self Hrun.
  induction calls as [| [simulation state] rest IH]; intros self Hrun; simpl in Hrun.
  - injection Hrun as <-. split; [reflexivity |].
    exists [], []. rewrite !app_nil_r. auto.
  - destruct (run h (report self simulation state)) as [e | self1] eqn:Hreport;
      [discriminate |].
    destruct (report_appends _ _ _ _ Hreport) as [pe [ke ->]].
    destruct (IH _ Hrun) as [Hinterval [pes [kes [Hpes [Hkes [Hpe [Hke Hte]]]]]]].
    simpl in *. split; [exact Hinterval |].
    exists (pe :: pes), (ke :: kes). simpl.
    rewrite Hpe, Hke, Hte, Hpes, Hkes, <- !app_assoc. auto.
Qed.

Lemma report_all_appends_witness :
  exists self',
    report_all openmm (mkEnergyReporter 100 [7] [8] [15])
      [(mkSimulation 100, mkState (Some (1, 2)))] = inr self'
    /\ _reportInterval self' = 100%Z
    /\ exists pes kes,
         List.length pes = 1%nat
         /\ List.length kes = 1%nat
         /\ _pe self' = [7] ++ pes
         /\ _ke self' = [8] ++ kes
         /\ _te self' = [15] ++ Engine.map2 Qplus pes kes.
Proof.
  eexists. split; [reflexivity |].
  apply (@report_all_appends openmm [(mkSimulation 100, mkState (Some (1, 2)))]
           (mkEnergyReporter 100 [7] [8] [15])).
  reflexivity.
Defined.

(** X10. Against the reference library a sequence of calls of [report]
    returns exactly when every state carries its energies, and then the lists
    hold the states' potential energies, kinetic energies and their sums, in
    kJ/mol and in the order of the calls. *)
Theorem report_all_records_energies
    (calls : list (Simulation * State)) (self : EnergyReporter) :
  ((exists self', report_all openmm self calls = inr self')
   <-> Forall (fun c => state_energy (snd c) <> None) calls)
  /\ (forall self',
        report_all openmm self calls = inr self' ->
        _pe self' = _pe self ++ map reported_potential calls
        /\ _ke self' = _ke self ++ map reported_kinetic calls
        /\ _te self' = _te self
                       ++ map (fun c => reported_potential c + reported_kinetic c) calls).
Proof.
  revert self.
  induction calls as [| [simulation state] rest IH]; intros self.
  - split.
    + split; [intros _; constructor | intros _; exists self; reflexivity].
    + intros self' [= <-]. simpl. rewrite !app_nil_r. auto.
  - simpl report_all. rewrite run_report.
    destruct state as [[[pe ke] |]]; simpl.
    + destruct (IH (mkEnergyReporter (_reportInterval self)
                      (_pe self ++ [div_unit pe kilojoules_per_mole])
                      (_ke self ++ [div_unit ke kilojoules_per_mole])
                      (_te self ++ [div_unit pe kilojoules_per_mole
                                    + div_unit ke kilojoules_per_mole])))
        as [IHiff IHlists].
      split.
      * rewrite IHiff. split.
        -- intros Hrest. constructor; [discriminate | exact Hrest].
        -- intros Hall. inversion Hall. assumption.
      * intros self' Hrun. destruct (IHlists _ Hrun) as [Hpe [Hke Hte]].
        simpl in Hpe, Hke, Hte.
        rewrite Hpe, Hke, Hte, <- !app_assoc. auto.
    + split.
      * split.
        -- intros [self' Hrun]. discriminate Hrun.
        -- intros Hall. inversion Hall as [| ? ? Hhead _]. contradiction.
      * intros self' Hrun. discriminate Hrun.
Qed.

Lemma report_all_records_energies_witness :
  exists self',
    report_all openmm (__init__ 100)
      [(mkSimulation 100, mkState (Some (1, 2)));
       (mkSimulation 200, mkState (Some (3, 4)))] = inr self'
    /\ Forall2 Qeq (_pe self') [1; 3]
    /\ Forall2 Qeq (_ke self') [2; 4]
    /\ Forall2 Qeq (_te self') [3; 7].
Proof.
  pose proof (@report_all_records_energies
                [(mkSimulation 100, mkState (Some (1, 2)));
                 (mkSimulation 200, mkState (Some (3, 4)))] (__init__ 100))
    as [[_ Hreturns] Hlists].
  destruct Hreturns as [self' Hrun].
  - repeat constructor; simpl; discriminate.
  - exists self'. split; [exact Hrun |].
    destruct (Hlists self' Hrun) as [-> [-> ->]].
    simpl. repeat constructor; reflexivity.
Defined.

End ListFacts.

(** ** More on the setup functions *)

Section SetupFacts.

Import Notebook.
Import Cells.

(** [create_topology], with the box it stores. *)
Lemma run_create_topology_box (n_particles : Z) (box_size : Q) :
  run openmm (create_topology n_particles box_size)
  = match check_box ValueError
            (mul_unit (div_unit box_size angstrom) angstrom,
             mul_unit 0 angstrom, mul_unit 0 angstrom)
            (mul_unit 0 angstrom, mul_unit (div_unit box_size angstrom) angstrom,
             mul_unit 0 angstrom)
            (mul_unit 0 angstrom, mul_unit 0 angstrom,
             mul_unit (div_unit box_size angstrom) angstrom) with
    | inr _ =>
        inr (mkTopology [mkChain 0]
               (map argon_residue (seq 0 (Z.to_nat n_particles)))
               (map argon_atom (seq 0 (Z.to_nat n_particles)))
               (Some (topology_box box_size)))
    | inl e => inl e
    end.
Proof.
  unfold create_topology.
  rewrite run_bind, run_call. simpl openmm. cbv iota.
  rewrite run_bind, run_call. simpl openmm. cbv iota.
  rewrite run_bind.
  rewrite run_for_each with
    (step := fun (top : Topology) (i : Z) =>
               mkTopology (chains top)
                 (residues top ++ [mkResidue "Ar" (len (residues top)) 0 i])
                 (atoms top ++ [mkAtom "Ar" argon (len (atoms top)) (len (residues top))])
                 (periodicBoxVectors top))
    by reflexivity.
  unfold range at 1. rewrite fold_argon by reflexivity.
  rewrite run_bind, run_call.
  change (map (map (fun x => mul_unit x angstrom))
            (np_diag (map (fun _ : Z => div_unit box_size angstrom) (range 3))))
    with [[mul_unit (div_unit box_size angstrom) angstrom;
           mul_unit 0 angstrom; mul_unit 0 angstrom];
          [mul_unit 0 angstrom; mul_unit (div_unit box_size angstrom) angstrom;
           mul_unit 0 angstrom];
          [mul_unit 0 angstrom; mul_unit 0 angstrom;
           mul_unit (div_unit box_size angstrom) angstrom]].
  cbn [openmm to_Vec3].
  destruct (check_box ValueError _ _ _); reflexivity.
Qed.

(** X11. A particle count that is not positive builds empty structures and
    is no error: the System has no particles, the NonbondedForce no
    parameter entries, and the Topology its one chain without residues and
    atoms. *)
Theorem nonpositive_count_builds_empty
    (n_particles : Z) (mass box_size sigma epsilon charge : Q)
    (Hn : (n_particles <= 0)%Z) :
  (forall system,
      run openmm (initialize_system n_particles mass box_size) = inr system ->
      particleMasses system = [])
  /\ (exists force,
        run openmm (create_NonBonndedForce n_particles sigma epsilon charge) = inr force
        /\ particleParameters force = [])
  /\ (forall top,
        run openmm (create_topology n_particles box_size) = inr top ->
        chains top = [mkChain 0] /\ residues top = [] /\ atoms top = []).
Proof.
  assert (Hzero : Z.to_nat n_particles = 0%nat) by lia.
  split; [| split].
  - intros system. rewrite run_initialize_system, Hzero.
    destruct (check_box _ _ _ _); [discriminate |]. intros [= <-]. reflexivity.
  - eexists. split; [apply create_NonBonndedForce_returns |].
    rewrite Hzero. reflexivity.
  - intros top. rewrite run_create_topology_box, Hzero.
    destruct (check_box _ _ _ _); [discriminate |]. intros [= <-]. auto.
Qed.

Lemma nonpositive_count_builds_empty_witness :
  exists system force top,
    run openmm (initialize_system (-3) 1 5) = inr system
    /\ run openmm (create_NonBonndedForce (-3) 1 1 0) = inr force
    /\ run openmm (create_topology (-3) 5) = inr top
    /\ particleMasses system = []
    /\ particleParameters force = []
    /\ residues top = [] /\ atoms top = [].
Proof.
  assert (Hn : (-3 <= 0)%Z) by lia.
  destruct (@nonpositive_count_builds_empty (-3) 1 5 1 1 0 Hn)
    as [Hsystem [[force [Hforce Hparams]] Htop]].
  eexists. exists force. eexists.
  split; [reflexivity |]. split; [exact Hforce |]. split; [reflexivity |].
  split; [apply Hsystem; reflexivity |]. split; [exact Hparams |].
  apply Htop. reflexivity.
Defined.

(** X12. [create_NonBonndedForce] checks nothing: it returns for every
    input, with periodic cutoffs and the dispersion correction switched on,
    and when sigma is not positive the force it returns has a switching
    distance that is not below its cutoff. *)
Theorem nonpositive_sigma_leaves_no_window
    (n_particles : Z) (sigma epsilon charge : Q) :
  exists force,
    run openmm (create_NonBonndedForce n_particles sigma epsilon charge) = inr force
    /\ nonbondedMethod force = CutoffPeriodic
    /\ useDispersionCorrection force = true
    /\ (sigma <= 0 -> ~ switchingDistance force < cutoffDistance force).
Proof.
  eexists. split; [apply create_NonBonndedForce_returns |]. simpl.
  split; [reflexivity |]. split; [reflexivity |].
  intros Hsigma Hlt. lra.
Qed.

Lemma nonpositive_sigma_leaves_no_window_witness :
  exists force,
    run openmm (create_NonBonndedForce 2 (-1) 1 0) = inr force
    /\ ~ switchingDistance force < cutoffDistance force.
Proof.
  destruct (@nonpositive_sigma_leaves_no_window 2 (-1) 1 0)
    as [force [Hrun [_ [_ Hwindow]]]].
  exists force. split; [exact Hrun |]. apply Hwindow. unfold Qle. simpl. lia.
Defined.

(** X13. The Topology mirrors the System: for a positive box size both are
    returned and the box stored in the Topology, converted to angstrom and
    back, equals the System's box entry by entry. *)
Theorem topology_box_mirrors_system_box
    (n_particles : Z) (mass box_size : Q) (Hbox : 0 < box_size) :
  exists system top box_vectors,
    run openmm (initialize_system n_particles mass box_size) = inr system
    /\ run openmm (create_topology n_particles box_size) = inr top
    /\ periodicBoxVectors top = Some box_vectors
    /\ defaultPeriodicBoxVectors system
       = ((box_size, 0, 0), (0, box_size, 0), (0, 0, box_size))
    /\ Forall2 (Forall2 Qeq) box_vectors
         [[box_size; 0; 0]; [0; box_size; 0]; [0; 0; box_size]].
Proof.
  do 3 eexists.
  split; [apply initialize_system_returns; exact Hbox |].
  split.
  - rewrite run_create_topology_box.
    rewrite check_box_rectangular; cbn [fst snd];
      try reflexivity; try (rewrite unit_round_trip; exact Hbox).
  - simpl. split; [reflexivity |]. split; [reflexivity |].
    change (topology_box box_size)
      with [[mul_unit (div_unit box_size angstrom) angstrom;
             mul_unit 0 angstrom; mul_unit 0 angstrom];
            [mul_unit 0 angstrom; mul_unit (div_unit box_size angstrom) angstrom;
             mul_unit 0 angstrom];
            [mul_unit 0 angstrom; mul_unit 0 angstrom;
             mul_unit (div_unit box_size angstrom) angstrom]].
    repeat constructor; try apply unit_round_trip; reflexivity.
Qed.

Lemma topology_box_mirrors_system_box_witness :
  exists system top box_vectors,
    run openmm (initialize_system 2 1 5) = inr system
    /\ run openmm (create_topology 2 5) = inr top
    /\ periodicBoxVectors top = Some box_vectors
    /\ defaultPeriodicBoxVectors system = ((5, 0, 0), (0, 5, 0), (0, 0, 5))
    /\ Forall2 (Forall2 Qeq) box_vectors [[5; 0; 0]; [0; 5; 0]; [0; 0; 5]].
Proof.
  apply (@topology_box_mirrors_system_box 2 1 5). reflexivity.
Defined.

(** X14. Every Topology [create_topology] returns has a single chain; each
    residue is named Ar, lies in that chain and has its index as id; each
    atom is an argon atom named Ar whose index is the index of its residue. *)
Theorem topology_is_one_chain_of_argon
    (n_particles : Z) (box_size : Q) (top : Topology)
    (Htop : run openmm (create_topology n_particles box_size) = inr top) :
  chains top = [mkChain 0]
  /\ Forall (fun r => residue_name r = "Ar" /\ residue_chain r = 0%Z
                      /\ residue_id r = residue_index r) (residues top)
  /\ Forall (fun a => atom_name a = "Ar" /\ atom_element a = mkElement "Ar" 18
                      /\ atom_index a = atom_residue a) (atoms top).
Proof.
  rewrite run_create_topology_box in Htop.
  destruct (check_box _ _ _ _); [discriminate |]. injection Htop as <-. simpl.
  split; [reflexivity |].
  split; apply Forall_map, Forall_forall; intros i _; simpl; auto.
Qed.

Lemma topology_is_one_chain_of_argon_witness :
  exists top,
    run openmm (create_topology 2 5) = inr top
    /\ chains top = [mkChain 0]
    /\ Forall (fun r => residue_name r = "Ar" /\ residue_chain r = 0%Z
                        /\ residue_id r = residue_index r) (residues top)
    /\ Forall (fun a => atom_name a = "Ar" /\ atom_element a = mkElement "Ar" 18
                        /\ atom_index a = atom_residue a) (atoms top).
Proof.
  eexists. split; [reflexivity |].
  apply (@topology_is_one_chain_of_argon 2 5). reflexivity.
Defined.

(** X15. A box size that is not positive is refused by the library at the
    last call of either function, with different exceptions:
    [initialize_system] ends with an OpenMMException, [create_topology] with
    a ValueError. *)
Theorem nonpositive_box_is_refused
    (n_particles : Z) (mass box_size : Q) (Hbox : box_size <= 0) :
  run openmm (initialize_system n_particles mass box_size)
  = inl (OpenMMException "Periodic box vectors must be in reduced form.")
  /\ run openmm (create_topology n_particles box_size)
     = inl (ValueError "Periodic box vectors must be in reduced form.").
Proof.
  split.
  - rewrite run_initialize_system. unfold check_box.
    apply Qle_bool_iff in Hbox. rewrite Hbox. reflexivity.
  - rewrite run_create_topology_box. unfold check_box.
    assert (Hle : Qle_bool (mul_unit (div_unit box_size angstrom) angstrom) 0 = true)
      by (apply Qle_bool_iff; rewrite unit_round_trip; exact Hbox).
    rewrite Hle. reflexivity.
Qed.

Lemma nonpositive_box_is_refused_witness :
  run openmm (initialize_system 2 1 0)
  = inl (OpenMMException "Periodic box vectors must be in reduced form.")
  /\ run openmm (create_topology 2 0)
     = inl (ValueError "Periodic box vectors must be in reduced form.").
Proof.
  apply (@nonpositive_box_is_refused 2 1 0). unfold Qle. simpl. lia.
Defined.

End SetupFacts.

(** ** More on the Euler integrator *)

Section StepFacts.

Import Notebook.
Import Engine.
Import Cells.

(** One step on a system without constraints, in closed form. *)
Lemma euler_step_unconstrained
    (dyn : Dynamics) (dt : Q) (state : list Dof) :
  0 <= dt ->
  unconstrained dyn ->
  Forall (fun d => ~ mass d == 0) state ->
  List.length (force_field dyn (map pos state)) = List.length state ->
  euler_step dyn dt state
  = inr (map2 (velocity_then_position dt) state (force_field dyn (map pos state))).
Proof.
  intros Hdt Hfree Hmass Hforces.
  rewrite euler_step_computations by exact Hdt. cbv zeta.
  destruct (Hfree state) as [-> _].
  rewrite (compute_velocity dt Hmass _ Hforces).
  destruct (velocity_update_facts dt state _ Hforces) as [Hpos [Hm [Hlen Hmap]]].
  rewrite Hpos, compute_position.
  - rewrite Hmap.
    destruct (Hfree (map2 (velocity_then_position dt) state
                       (force_field dyn (map pos state)))) as [_ [-> ->]].
    reflexivity.
  - exact (Forall_mass (fun m => ~ m == 0) _ Hm Hmass).
  - rewrite Hlen. exact Hforces.
Qed.

Lemma step_versus_forward (dt : Q) (state : list Dof) :
  forall forces,
    List.length forces = List.length state ->
    Forall2 (fun d' df =>
               vel d' = vel (forward_euler dt (fst df) (snd df))
               /\ mass d' = mass (fst df)
               /\ pos d' == pos (forward_euler dt (fst df) (snd df))
                            + dt * dt * snd df / mass (fst df))
            (map2 (velocity_then_position dt) state forces)
            (combine state forces).
Proof.
  induction state as [| d state IH]; intros [| f forces] Hlen;
    try discriminate; simpl; constructor.
  - simpl. repeat split. unfold Qdiv. ring.
  - apply IH. simpl in Hlen. lia.
Qed.

(** X16. How far the integrator is from forward Euler: on a system
    without constraints, with non-zero masses and a timestep that is not
    negative, every degree of freedom leaves a step with the
    velocity forward Euler gives and with a position that exceeds forward
    Euler's by dt*dt*f/m. *)
Theorem euler_step_versus_forward_euler
    (dyn : Dynamics) (dt : Q) (state : list Dof)
    (Hdt : 0 <= dt)
    (Hfree : unconstrained dyn)
    (Hmass : Forall (fun d => ~ mass d == 0) state)
    (Hforces : List.length (force_field dyn (map pos state)) = List.length state) :
  exists state',
    euler_step dyn dt state = inr state'
    /\ Forall2 (fun d' df =>
                  vel d' = vel (forward_euler dt (fst df) (snd df))
                  /\ mass d' = mass (fst df)
                  /\ pos d' == pos (forward_euler dt (fst df) (snd df))
                               + dt * dt * snd df / mass (fst df))
               state' (combine state (force_field dyn (map pos state))).
Proof.
  eexists. split; [apply euler_step_unconstrained; assumption |].
  apply step_versus_forward. exact Hforces.
Qed.

Lemma total_momentum_step (dt : Q) (state : list Dof) :
  Forall (fun d => ~ mass d == 0) state ->
  forall forces,
    List.length forces = List.length state ->
    total_momentum (map2 (velocity_then_position dt) state forces)
    == total_momentum state + dt * total forces.
Proof.
  unfold total_momentum.
  induction 1 as [| d state Hd _ IH]; intros [| f forces] Hlen;
    try discriminate; simpl.
  - ring.
  - rewrite IH by (simpl in Hlen; lia). field. exact Hd.
Qed.

(** X17. Momentum balance: on a system without constraints whose masses
    are all non-zero, and for a timestep that is not negative, one step
    changes the total momentum by dt times the total force, so forces that
    sum to zero leave the total momentum unchanged. *)
Theorem euler_step_momentum
    (dyn : Dynamics) (dt : Q) (state : list Dof)
    (Hdt : 0 <= dt)
    (Hfree : unconstrained dyn)
    (Hmass : Forall (fun d => ~ mass d == 0) state)
    (Hforces : List.length (force_field dyn (map pos state)) = List.length state) :
  exists state',
    euler_step dyn dt state = inr state'
    /\ total_momentum state'
       == total_momentum state + dt * total (force_field dyn (map pos state))
    /\ (total (force_field dyn (map pos state)) == 0 ->
        total_momentum state' == total_momentum state).
Proof.
  eexists. split; [apply euler_step_unconstrained; assumption |].
  pose proof (total_momentum_step dt Hmass _ Hforces) as Hbalance.
  split; [exact Hbalance |].
  intros Hzero. rewrite Hbalance, Hzero. ring.
Qed.

Lemma shadow_energy_step (k dt : Q) (state : list Dof) :
  Forall (fun d => ~ mass d == 0) state ->
  shadow_energy k dt
    (map2 (velocity_then_position dt) state (map (fun x => - k * x) (map pos state)))
  == shadow_energy k dt state.
Proof.
  unfold shadow_energy.
  induction 1 as [| d state Hd _ IH]; simpl.
  - reflexivity.
  - rewrite IH. field. exact Hd.
Qed.

(** X18. In a harmonic well the integrator keeps an energy: when the force
    on every degree of freedom is -k*x, there are no constraints, the masses
    are non-zero and the timestep is not negative, a step
    leaves the sum of m*v*v + k*x*x - dt*k*x*v over the degrees of freedom
    unchanged. *)
Theorem euler_step_keeps_shadow_energy
    (dyn : Dynamics) (k dt : Q) (state : list Dof)
    (Hdt : 0 <= dt)
    (Hfree : unconstrained dyn)
    (Hwell : forall xs, force_field dyn xs = map (fun x => - k * x) xs)
    (Hmass : Forall (fun d => ~ mass d == 0) state) :
  exists state',
    euler_step dyn dt state = inr state'
    /\ shadow_energy k dt state' == shadow_energy k dt state.
Proof.
  eexists. split.
  - apply euler_step_unconstrained; try assumption.
    rewrite Hwell, !length_map. reflexivity.
  - rewrite Hwell. apply shadow_energy_step. exact Hmass.
Qed.

End StepFacts.

Lemma euler_step_versus_forward_euler_witness :
  exists state',
    Notebook.euler_step (Engine.uniform_force 1) 1 [Engine.mkDof 0 0 2] = inr state'
    /\ Forall2 (fun d' df =>
                  Engine.vel d' = Engine.vel (Engine.forward_euler 1 (fst df) (snd df))
                  /\ Engine.mass d' = Engine.mass (fst df)
                  /\ Engine.pos d'
                     == Engine.pos (Engine.forward_euler 1 (fst df) (snd df))
                        + 1 * 1 * snd df / Engine.mass (fst df))
               state'
               (combine [Engine.mkDof 0 0 2]
                  (Engine.force_field (Engine.uniform_force 1)
                     (map Engine.pos [Engine.mkDof 0 0 2]))).
Proof.
  apply (@euler_step_versus_forward_euler (Engine.uniform_force 1) 1 [Engine.mkDof 0 0 2]).
  - unfold Qle. simpl. lia.
  - intros state. simpl. repeat split; reflexivity.
  - constructor; [| constructor]. unfold Qeq. simpl. lia.
  - reflexivity.
Defined.

Lemma euler_step_momentum_witness :
  exists state',
    Notebook.euler_step (Engine.uniform_force 1) 1 [Engine.mkDof 0 0 2; Engine.mkDof 1 3 4]
    = inr state'
    /\ Cells.total_momentum state'
       == Cells.total_momentum [Engine.mkDof 0 0 2; Engine.mkDof 1 3 4]
          + 1 * Cells.total (Engine.force_field (Engine.uniform_force 1)
                               (map Engine.pos [Engine.mkDof 0 0 2; Engine.mkDof 1 3 4])).
Proof.
  destruct (@euler_step_momentum (Engine.uniform_force 1) 1
              [Engine.mkDof 0 0 2; Engine.mkDof 1 3 4])
    as [state' [Hstep [Hbalance _]]].
  - unfold Qle. simpl. lia.
  - intros state. simpl. repeat split; reflexivity.
  - repeat constructor; unfold Qeq; simpl; lia.
  - reflexivity.
  - exists state'. split; assumption.
Defined.

Lemma euler_step_keeps_shadow_energy_witness :
  exists state',
    Notebook.euler_step
      (Engine.mkDynamics (map (fun x => - 4 * x)) (fun s => s) (fun s => s) (fun s => s))
      (1 # 10) [Engine.mkDof 1 0 2] = inr state'
    /\ Cells.shadow_energy 4 (1 # 10) state'
       == Cells.shadow_energy 4 (1 # 10) [Engine.mkDof 1 0 2].
Proof.
  apply (@euler_step_keeps_shadow_energy
           (Engine.mkDynamics (map (fun x => - 4 * x)) (fun s => s) (fun s => s)
              (fun s => s))
           4 (1 # 10) [Engine.mkDof 1 0 2]).
  - unfold Qle. simpl. lia.
  - intros state. simpl. repeat split; reflexivity.
  - intros xs. reflexivity.
  - constructor; [| constructor]. unfold Qeq. simpl. lia.
Defined.

(** ** The runs use the context in a sound order *)

Section ProtocolFacts.

Import Runs.
Import Protocol.

(** X19. Every run of the two notebooks creates the simulation context
    before it uses it, sets positions before it minimizes or advances and
    velocities before it advances, sets, minimizes and attaches nothing once
    the simulation has advanced, and loads a trajectory file only after a DCD
    reporter was attached and the simulation advanced. *)
Theorem runs_are_well_ordered :
  Forall (fun run => well_ordered run = true) all_runs.
Proof. repeat constructor. Qed.

End ProtocolFacts.

(** ** Stepping a simulation that carries an energy reporter *)

Section StepReports.

Import Notebook.
Import EnergyReporter_.
Import AppSimulation.

Variable energies_at : Z -> Q * Q.

Lemma next_multiple (R c : Z) :
  (0 < R)%Z ->
  (c + (R - c mod R) = (c / R + 1) * R)%Z
  /\ ((c + (R - c mod R)) / R = c / R + 1)%Z
  /\ (1 <= R - c mod R <= R)%Z.
Proof.
  intros HR.
  pose proof (Z.div_mod c R) as Hdiv.
  pose proof (Z.mod_pos_bound c R HR) as Hbound.
  assert (Heq : (c + (R - c mod R) = (c / R + 1) * R)%Z) by lia.
  split; [exact Heq |]. split; [| lia].
  rewrite Heq. apply Z.div_mul. lia.
Qed.

Lemma no_multiple_between (R c e : Z) :
  (0 < R)%Z -> (c <= e)%Z -> (e < c + (R - c mod R))%Z -> (e / R = c / R)%Z.
Proof.
  intros HR Hce Hlt.
  destruct (next_multiple c HR) as [Heq _]. rewrite Heq in Hlt.
  apply Z.le_antisymm.
  - assert (e / R < c / R + 1)%Z by (apply Z.div_lt_upper_bound; lia). lia.
  - apply Z.div_le_mono; lia.
Qed.

Lemma report_steps_nil (R c e : Z) :
  (0 < R)%Z -> (e <= c)%Z -> report_steps R c e = [].
Proof.
  intros HR Hle. unfold report_steps.
  assert (e / R <= c / R)%Z by (apply Z.div_le_mono; lia).
  replace (Z.to_nat (e / R - c / R)) with 0%nat by lia. reflexivity.
Qed.

Lemma report_steps_cons (R c e : Z) :
  (0 < R)%Z -> (c + (R - c mod R) <= e)%Z ->
  report_steps R c e
  = (c + (R - c mod R))%Z :: report_steps R (c + (R - c mod R)) e.
Proof.
  intros HR Hle. unfold report_steps.
  destruct (next_multiple c HR) as [Heq [Hdiv _]].
  assert (c / R + 1 <= e / R)%Z
    by (rewrite <- Hdiv; apply Z.div_le_mono; lia).
  rewrite Hdiv.
  replace (Z.to_nat (e / R - c / R)) with (S (Z.to_nat (e / R - (c / R + 1)))) by lia.
  simpl. rewrite Heq. f_equal. f_equal. lia.
Qed.

Lemma run_report_with_energy (self : EnergyReporter) (simulation : Simulation)
    (energies : Q * Q) :
  run openmm (report self simulation (getState true energies))
  = inr (mkEnergyReporter (_reportInterval self)
           (_pe self ++ [div_unit (fst energies) kilojoules_per_mole])
           (_ke self ++ [div_unit (snd energies) kilojoules_per_mole])
           (_te self ++ [div_unit (fst energies) kilojoules_per_mole
                         + div_unit (snd energies) kilojoules_per_mole])).
Proof. rewrite run_report. destruct energies as [pe ke]. reflexivity. Qed.

Lemma simulate_reports (fuel : nat) :
  forall (self : EnergyReporter) (c e : Z),
    (0 < _reportInterval self)%Z ->
    (Z.to_nat (e - c) <= fuel)%nat ->
    exists self',
      simulate fuel openmm energies_at self c e = Some (inr (self', Z.max c e))
      /\ _reportInterval self' = _reportInterval self
      /\ _pe self'
         = _pe self ++ map (fun k => div_unit (fst (energies_at k)) kilojoules_per_mole)
                         (report_steps (_reportInterval self) c e)
      /\ _ke self'
         = _ke self ++ map (fun k => div_unit (snd (energies_at k)) kilojoules_per_mole)
                         (report_steps (_reportInterval self) c e)
      /\ _te self'
         = _te self ++ map (fun k => div_unit (fst (energies_at k)) kilojoules_per_mole
                                     + div_unit (snd (energies_at k)) kilojoules_per_mole)
                         (report_steps (_reportInterval self) c e).
Proof.
  induction fuel as [| fuel IH]; intros self c e HR Hfuel.
  - exists self. simpl.
    destruct (Z.ltb_spec c e) as [Hlt | Hge]; [lia |].
    rewrite report_steps_nil by lia. rewrite !app_nil_r.
    replace (Z.max c e) with c by lia. auto.
  - simpl. destruct (Z.ltb_spec c e) as [Hlt | Hge].
    + rewrite run_describeNextReport by lia. simpl currentStep.
      destruct (next_multiple c HR) as [_ [_ Hsteps]].
      set (steps := (_reportInterval self - c mod _reportInterval self)%Z) in *.
      assert (Hpos : (0 <? steps)%Z = true) by (apply Z.ltb_lt; lia).
      rewrite Hpos. cbn [andb].
      destruct (Z.leb_spec steps (e - c)) as [Hin | Hout].
      * rewrite run_report_with_energy.
        destruct (IH (mkEnergyReporter (_reportInterval self)
                        (_pe self ++ [div_unit (fst (energies_at (c + steps)))
                                        kilojoules_per_mole])
                        (_ke self ++ [div_unit (snd (energies_at (c + steps)))
                                        kilojoules_per_mole])
                        (_te self ++ [div_unit (fst (energies_at (c + steps)))
                                        kilojoules_per_mole
                                      + div_unit (snd (energies_at (c + steps)))
                                          kilojoules_per_mole]))
                    (c + steps)%Z e)
          as [self' [Hrun [Hinterval [Hpe [Hke Hte]]]]]; [exact HR | lia |].
        exists self'. simpl in Hinterval, Hpe, Hke, Hte.
        rewrite Hrun. replace (Z.max (c + steps) e) with (Z.max c e) by lia.
        unfold steps in *. rewrite (@report_steps_cons _ c e) by lia.
        simpl map. rewrite Hpe, Hke, Hte, <- !app_assoc. auto.
      * destruct (IH self (c + (e - c))%Z e)
          as [self' [Hrun [Hinterval [Hpe [Hke Hte]]]]]; [exact HR | lia |].
        exists self'. rewrite Hrun.
        replace (Z.max (c + (e - c)) e) with (Z.max c e) by lia.
        rewrite report_steps_nil in Hpe, Hke, Hte by lia.
        unfold report_steps.
        rewrite (@no_multiple_between (_reportInterval self) c e) by (unfold steps in *; lia).
        rewrite Z.sub_diag. simpl. auto.
    + exists self. rewrite report_steps_nil by lia. rewrite !app_nil_r.
      replace (Z.max c e) with c by lia. auto.
Qed.

Lemma multiples_from_spec (R : Z) (count : nat) :
  (0 < R)%Z ->
  forall first,
    (first mod R = 0)%Z ->
    List.length (multiples_from R first count) = count
    /\ Forall (fun k => (k mod R = 0)%Z
                        /\ (first <= k)%Z
                        /\ (k + R <= first + Z.of_nat count * R)%Z)
              (multiples_from R first count).
Proof.
  intros HR. induction count as [| count IH]; intros first Hfirst;
    cbn [multiples_from List.length].
  - split; [reflexivity | constructor].
  - destruct (IH (first + R)%Z) as [Hlen Hall].
    { rewrite Z.add_mod, Hfirst, Z.mod_same, Z.add_0_l, Z.mod_0_l by lia. reflexivity. }
    split; [rewrite Hlen; reflexivity |].
    constructor; [split; [exact Hfirst | lia] |].
    eapply Forall_impl; [| exact Hall]. cbv beta. intros k [Hk [Hlo Hhi]].
    split; [exact Hk | lia].
Qed.

(** X20. Stepping a simulation that carries an energy reporter with a
    positive interval, over a non-negative number of steps and against the
    reference library, ends at the requested step, and the reporter has
    recorded the energies at exactly the multiples of its interval that were
    passed, in order: one entry per multiple in each list. *)
Theorem step_reports_at_multiples
    (self : EnergyReporter) (currentStep steps : Z)
    (Hinterval : (0 < _reportInterval self)%Z)
    (Hsteps : (0 <= steps)%Z) :
  exists self' reported,
    step openmm energies_at self currentStep steps
    = Some (inr (self', (currentStep + steps)%Z))
    /\ reported = report_steps (_reportInterval self) currentStep (currentStep + steps)
    /\ List.length reported
       = Z.to_nat ((currentStep + steps) / _reportInterval self
                   - currentStep / _reportInterval self)
    /\ Forall (fun k => (k mod _reportInterval self = 0)%Z
                        /\ (currentStep < k <= currentStep + steps)%Z) reported
    /\ _pe self'
       = _pe self ++ map (fun k => div_unit (fst (energies_at k)) kilojoules_per_mole)
                       reported
    /\ _ke self'
       = _ke self ++ map (fun k => div_unit (snd (energies_at k)) kilojoules_per_mole)
                       reported
    /\ _te self'
       = _te self ++ map (fun k => div_unit (fst (energies_at k)) kilojoules_per_mole
                                   + div_unit (snd (energies_at k)) kilojoules_per_mole)
                       reported.
Proof.
  destruct (@simulate_reports (Z.to_nat steps) self currentStep (currentStep + steps)%Z)
    as [self' [Hrun [_ [Hpe [Hke Hte]]]]]; [exact Hinterval | lia |].
  exists self', (report_steps (_reportInterval self) currentStep (currentStep + steps)).
  unfold step. rewrite Hrun.
  replace (Z.max currentStep (currentStep + steps)) with (currentStep + steps)%Z by lia.
  split; [reflexivity |]. split; [reflexivity |].
  set (R := _reportInterval self) in *.
  destruct (@multiples_from_spec R
              (Z.to_nat ((currentStep + steps) / R - currentStep / R)) Hinterval
              ((currentStep / R + 1) * R)%Z) as [Hlen Hall].
  { apply Z.mod_mul. lia. }
  split; [exact Hlen |]. split; [| auto].
  unfold report_steps. eapply Forall_impl; [| exact Hall]. simpl.
  intros k [Hk [Hlo Hhi]]. split; [exact Hk |].
  assert (Hdiv : (currentStep = R * (currentStep / R) + currentStep mod R)%Z)
    by (apply Z.div_mod; lia).
  pose proof (Z.mod_pos_bound currentStep R Hinterval) as Hbound.
  pose proof (Z.mul_div_le (currentStep + steps) R Hinterval) as Hfloor.
  assert (currentStep / R <= (currentStep + steps) / R)%Z
    by (apply Z.div_le_mono; lia).
  rewrite Z2Nat.id in Hhi by lia. lia.
Qed.

End StepReports.

Lemma step_reports_at_multiples_witness :
  exists self',
    AppSimulation.step openmm (fun k => (inject_Z k, 1))
      (Notebook.EnergyReporter_.__init__ 100) 0 10000
    = Some (inr (self', 10000%Z))
    /\ List.length (Notebook._pe self') = 100%nat
    /\ List.length (Notebook._ke self') = 100%nat
    /\ List.length (Notebook._te self') = 100%nat.
Proof.
  destruct (@step_reports_at_multiples (fun k => (inject_Z k, 1))
              (Notebook.EnergyReporter_.__init__ 100) 0 10000)
    as [self' [reported [Hrun [_ [Hlen [_ [Hpe [Hke Hte]]]]]]]].
  - simpl. lia.
  - lia.
  - exists self'. split; [exact Hrun |].
    rewrite Hpe, Hke, Hte. simpl. rewrite !length_map, Hlen.
    repeat split; reflexivity.
Defined.
